(** * Audio segmentation and transcription dispatch of the Oatmeal desktop app

    Shallow embedding of [apps/desktop/src/hooks/useAudio.ts]: the frame
    handler [handleAudioFrame], the dispatcher [flushTranscription] and
    [resetAudio].  JavaScript numbers are modelled as real numbers, the
    React refs and states of the hook as the fields of [Session], and the
    asynchronous [invoke('transcribe_audio', ...)] calls still in flight as
    a list of [Call]s next to the session.  [flushTranscription] is split
    at its only [await]: [flush_start] is the synchronous prefix run inside
    the frame handler, [flush_finish] is the continuation run when the call
    settles.

    Also embedded: the callers' uses of the hook's outputs ([Waveform] in
    components/Pill.tsx, the save in [handleStopRecording] of App.tsx) and
    the chunk-length field of components/SettingsPanel.tsx. *)

From Stdlib Require Import ZArith Reals Lra Lia String Ascii List Bool.
Import ListNotations.

Local Open Scope R_scope.

Module Audio.

(** ** JavaScript helpers *)

(** [x ? ... : ...] on a number: [0] is falsy. *)
Definition truthy (x : R) : bool := if Req_EM_T x 0 then false else true.

(** The same test on a ref holding [number | null]. *)
Definition truthy_opt (o : option R) : bool :=
  match o with Some x => truthy x | None => false end.

(** [x >= y] and [x > y]. *)
Definition Rge_b (x y : R) : bool := if Rle_dec y x then true else false.
Definition Rgt_b (x y : R) : bool := if Rlt_dec y x then true else false.

(** [Math.floor]. *)
Definition floor (x : R) : R := IZR (Int_part x).

(** A number or [Infinity], for [silenceGapMs]. *)
Inductive gap := Finite (x : R) | Infinity.

Definition gap_ge (g : gap) (y : R) : bool :=
  match g with Finite x => Rge_b x y | Infinity => true end.

(** [String.prototype.trim] on ASCII text: tab, line feed, vertical tab,
    form feed, carriage return and space. *)
Definition is_ws (c : ascii) : bool :=
  let n := nat_of_ascii c in
  ((9 <=? n)%nat && (n <=? 13)%nat) || (n =? 32)%nat.

Fixpoint drop_ws (l : list ascii) : list ascii :=
  match l with
  | [] => []
  | c :: r => if is_ws c then drop_ws r else l
  end.

Definition trim (s : string) : string :=
  string_of_list_ascii (rev (drop_ws (rev (drop_ws (list_ascii_of_string s))))).

(** [trim] on the list of characters, and the lists [trim] returns: no
    white space at either end. *)
Definition trim_list (l : list ascii) : list ascii := rev (drop_ws (rev (drop_ws l))).

Definition clean (l : list ascii) : Prop :=
  (forall c r, l = c :: r -> is_ws c = false) /\
  (forall p c, l = p ++ [c] -> is_ws c = false).

(** ** Data model *)

(** [interface AudioFrame]. *)
Record AudioFrame := mkFrame {
  data : list R;
  timestamp : R;
  sample_rate : R
}.

(** The hook's state: React states and refs. *)
Record Session := mkSession {
  frameCount : nat;               (* useState frameCount *)
  transcript : string;            (* useState transcript *)
  audioBuffer : list R;           (* audioBufferRef *)
  levels : list R;                (* useState levels *)
  sampleRate : option R;          (* useState sampleRate *)
  lastSnippet : string;           (* lastSnippetRef *)
  speakingRef : bool;             (* speakingRef *)
  lastVoiceMs : option R;         (* lastVoiceMsRef *)
  sampleRateRef : option R;       (* sampleRateRef *)
  transcribingRef : bool          (* transcribingRef *)
}.

(** Arguments of one [invoke('transcribe_audio', ...)]. *)
Record Call := mkCall {
  audio_frames : list R;
  call_rate : R
}.

(** How a call settles: resolved with a value ([None] for a null result)
    or rejected. *)
Inductive outcome := Resolved (r : option string) | Rejected.

(** State on mount. *)
Definition initial_session : Session :=
  mkSession 0 "" [] [] None "" false None None false.

(** ** Field updates *)

Definition set_buffer (b : list R) (s : Session) : Session :=
  mkSession (frameCount s) (transcript s) b (levels s) (sampleRate s)
    (lastSnippet s) (speakingRef s) (lastVoiceMs s) (sampleRateRef s)
    (transcribingRef s).

Definition set_transcribing (t : bool) (s : Session) : Session :=
  mkSession (frameCount s) (transcript s) (audioBuffer s) (levels s)
    (sampleRate s) (lastSnippet s) (speakingRef s) (lastVoiceMs s)
    (sampleRateRef s) t.

Definition set_levels (l : list R) (s : Session) : Session :=
  mkSession (frameCount s) (transcript s) (audioBuffer s) l (sampleRate s)
    (lastSnippet s) (speakingRef s) (lastVoiceMs s) (sampleRateRef s)
    (transcribingRef s).

Definition set_vad (sp : bool) (lv : option R) (s : Session) : Session :=
  mkSession (frameCount s) (transcript s) (audioBuffer s) (levels s)
    (sampleRate s) (lastSnippet s) sp lv (sampleRateRef s)
    (transcribingRef s).

Definition set_text (t snip : string) (s : Session) : Session :=
  mkSession (frameCount s) t (audioBuffer s) (levels s) (sampleRate s)
    snip (speakingRef s) (lastVoiceMs s) (sampleRateRef s)
    (transcribingRef s).

(** ** flushTranscription *)

(** Lines 51-56: the part before the [await].  On dispatch it returns the
    call that is now in flight. *)
Definition flush_start (s : Session) : Session * option Call :=
  if transcribingRef s then (s, None) else
  match sampleRateRef s with
  | Some sr =>
      if truthy sr && negb (length (audioBuffer s) =? 0)%nat then
        let chunk := audioBuffer s in
        (set_buffer [] (set_transcribing true s), Some (mkCall chunk sr))
      else (s, None)
  | None => (s, None)
  end.

(** Line 66: [prev + (prev ? ' ' : '') + cleaned]. *)
Definition append_snippet (prev cleaned : string) : string :=
  (prev ++ (if String.eqb prev "" then "" else " ") ++ cleaned)%string.

(** Lines 64-68. *)
Definition accept_result (r : option string) (s : Session) : Session :=
  let cleaned := trim (match r with Some x => x | None => ""%string end) in
  if negb (String.eqb cleaned "") && negb (String.eqb cleaned (lastSnippet s))
  then set_text (append_snippet (transcript s) cleaned) cleaned s
  else s.

(** Lines 57-75: the continuation after the [await], [finally] included. *)
Definition flush_finish (o : outcome) (s : Session) : Session :=
  let s1 := match o with
            | Resolved r => accept_result r s
            | Rejected => s  (* console.error only *)
            end in
  set_transcribing false (set_vad false None s1).

(** ** handleAudioFrame *)

(** Lines 80-83. *)
Definition latch_rate (f : AudioFrame) (s : Session) : Session :=
  if truthy_opt (sampleRateRef s) then s else
  mkSession (frameCount s) (transcript s) (audioBuffer s) (levels s)
    (Some (sample_rate f)) (lastSnippet s) (speakingRef s) (lastVoiceMs s)
    (Some (sample_rate f)) (transcribingRef s).

(** Lines 89-91. *)
Definition rms (d : list R) : R :=
  sqrt (fold_left (fun acc v => acc + v * v) d 0 / Rmax 1 (INR (length d))).

(** Line 93. *)
Definition normalize (r : R) : R :=
  if Rgt_b r 1 then Rmin 1 (r / 32767) else Rmin 1 r.

Definition level (d : list R) : R := normalize (rms d).

(** Lines 94-99. *)
Definition push_level (prev : list R) (n : R) : list R :=
  let next := prev ++ [n] in
  if (60 <? length next)%nat then skipn (length next - 60) next else next.

Definition vadOn : R := 0.03.
Definition vadOff : R := 0.02.

(** Lines 104-113. *)
Definition vad_update (normalized nowMs : R) (s : Session) : Session :=
  let sp := if negb (speakingRef s) && Rge_b normalized vadOn
            then true else speakingRef s in
  let lv := if sp then
              if Rge_b normalized vadOff then Some nowMs
              else match lastVoiceMs s with
                   | None => Some nowMs
                   | Some x => Some x
                   end
            else lastVoiceMs s in
  set_vad sp lv s.

(** Line 116: [Math.max(1, Math.min(6, Number(chunkSeconds ?? 2.5)))]. *)
Definition effective_chunk_seconds (chunkSeconds : R) : R :=
  Rmax 1 (Rmin 6 chunkSeconds).

(** Line 118. *)
Definition neededSamples (cs : R) (sr : option R) : R :=
  match sr with Some r => if truthy r then floor (r * cs) else 0 | None => 0 end.

(** Line 119. *)
Definition enoughForChunk (cs : R) (s : Session) : bool :=
  if truthy_opt (sampleRateRef s)
  then Rge_b (INR (length (audioBuffer s))) (neededSamples cs (sampleRateRef s))
  else false.

(** Line 120. *)
Definition silenceGapMs (nowMs : R) (s : Session) : gap :=
  if truthy_opt (lastVoiceMs s)
  then match lastVoiceMs s with Some lv => Finite (nowMs - lv) | None => Infinity end
  else Infinity.

(** Line 121. *)
Definition minUtteranceSamples (cs : R) (sr : option R) : R :=
  match sr with
  | Some r => if truthy r then floor (r * Rmin 1 cs) else 0
  | None => 0
  end.

(** Line 122. *)
Definition pauseDetected (cs nowMs : R) (s : Session) : bool :=
  speakingRef s && gap_ge (silenceGapMs nowMs s) 450
  && Rge_b (INR (length (audioBuffer s))) (minUtteranceSamples cs (sampleRateRef s)).

(** The session after lines 79-113, before the flush decision. *)
Definition frame_update (f : AudioFrame) (s : Session) : Session :=
  let s1 := mkSession (S (frameCount s)) (transcript s) (audioBuffer s)
              (levels s) (sampleRate s) (lastSnippet s) (speakingRef s)
              (lastVoiceMs s) (sampleRateRef s) (transcribingRef s) in
  let s2 := latch_rate f s1 in
  let s3 := set_buffer (audioBuffer s2 ++ data f) s2 in
  let normalized := level (data f) in
  let s4 := set_levels (push_level (levels s3) normalized) s3 in
  vad_update normalized (timestamp f) s4.

(** [handleAudioFrame] with the [chunkSeconds] value its closure reads. *)
Definition handle_frame (chunkSeconds : R) (f : AudioFrame) (s : Session)
  : Session * option Call :=
  let s5 := frame_update f s in
  let cs := effective_chunk_seconds chunkSeconds in
  if (enoughForChunk cs s5 || pauseDetected cs (timestamp f) s5)
     && negb (transcribingRef s5)
  then flush_start s5
  else (s5, None).

(** ** resetAudio (lines 42-48 and 168-175) *)

Definition reset_audio (s : Session) : Session :=
  mkSession 0 "" [] [] None (lastSnippet s) false None None false.

(** ** The hook together with its calls in flight *)

Record World := mkWorld {
  sess : Session;
  inflight : list Call
}.

Inductive Event :=
  | FrameArrives (chunkSeconds : R) (f : AudioFrame)
  | CallSettles (i : nat) (o : outcome)   (* the [i]-th call in flight *)
  | Reset.

Fixpoint remove_nth {A} (i : nat) (l : list A) : list A :=
  match i, l with
  | _, [] => []
  | O, _ :: r => r
  | S j, x :: r => x :: remove_nth j r
  end.

(** One event; [None] when the event cannot happen (no [i]-th call).  The
    second component is the call dispatched by the event, if any. *)
Definition step (e : Event) (w : World) : option (World * option Call) :=
  match e with
  | FrameArrives cs f =>
      let '(s', c) := handle_frame cs f (sess w) in
      Some (mkWorld s' (inflight w ++ match c with Some x => [x] | None => [] end), c)
  | CallSettles i o =>
      if (i <? length (inflight w))%nat
      then Some (mkWorld (flush_finish o (sess w)) (remove_nth i (inflight w)), None)
      else None
  | Reset => Some (mkWorld (reset_audio (sess w)) (inflight w), None)
  end.

(** A run of events, with the calls dispatched along it in order. *)
Fixpoint run (es : list Event) (w : World) : option (World * list Call) :=
  match es with
  | [] => Some (w, [])
  | e :: es' =>
      match step e w with
      | None => None
      | Some (w1, c) =>
          match run es' w1 with
          | None => None
          | Some (w2, cs) =>
              Some (w2, match c with Some x => x :: cs | None => cs end)
          end
      end
  end.

(** Events of one recording session: frames and settling calls. *)
Definition session_event (e : Event) : bool :=
  match e with Reset => false | _ => true end.

(** Frame events only. *)
Definition is_frame (e : Event) : bool :=
  match e with FrameArrives _ _ => true | _ => false end.

(** The samples carried by the frames of a run. *)
Fixpoint frame_samples (es : list Event) : list R :=
  match es with
  | [] => []
  | FrameArrives _ f :: r => data f ++ frame_samples r
  | _ :: r => frame_samples r
  end.

(** ** Concrete inputs *)

(** [n] samples of silence. *)
Definition silence (n : nat) : list R := repeat 0 n.

(** One second of silence at 16 kHz, stamped [t]. *)
Definition full_frame (t : R) : AudioFrame :=
  mkFrame (silence (Z.to_nat 16000)) t 16000.

(** A call dispatched, a restart (stop, then [handleStartRecording] calls
    [resetAudio]) while it is still in flight, a frame of the new session
    that dispatches, the old call rejected late, and a further frame. *)
Definition restart_events : list Event :=
  [FrameArrives 1 (full_frame 1000); Reset; FrameArrives 1 (full_frame 2000);
   CallSettles 0 Rejected; FrameArrives 1 (full_frame 3000)].

(** A first voiced frame at time 0, then a quiet frame 449 ms later
    holding the rest of one second of audio at 16 kHz. *)
Definition first_voiced_frame : AudioFrame := mkFrame [0.5] 0 16000.
Definition quiet_frame_449 : AudioFrame :=
  mkFrame (silence (Z.to_nat 15999)) 449 16000.

(** A session with the rate 16 kHz latched and nothing buffered. *)
Definition latched_session : Session :=
  mkSession 0 "" [] [] (Some 16000) "" false None (Some 16000) false.

(** One full frame that dispatches, then that call resolving " hi ". *)
Definition demo_events : list Event :=
  [FrameArrives 1 (full_frame 1000); CallSettles 0 (Resolved (Some " hi "%string))].

Definition demo_call : Call := mkCall (silence (Z.to_nat 16000)) 16000.

Definition demo_final (s : Session) : World :=
  mkWorld (flush_finish (Resolved (Some " hi "%string))
             (set_buffer [] (set_transcribing true (frame_update (full_frame 1000) s)))) [].

(** A voiced one-sample frame arriving while the first call is in flight. *)
Definition voiced_frame : AudioFrame := mkFrame [0.5] 1100 16000.

(** The first full frame dispatches, a voiced frame arrives while that call
    is in flight, then the call resolves " hi ". *)
Definition busy_events : list Event :=
  [FrameArrives 1 (full_frame 1000); FrameArrives 1 voiced_frame;
   CallSettles 0 (Resolved (Some " hi "%string))].

Definition busy_before_settle : World :=
  mkWorld (frame_update voiced_frame
             (set_buffer [] (set_transcribing true (frame_update (full_frame 1000) initial_session))))
    [demo_call].

Definition busy_final : World :=
  mkWorld (flush_finish (Resolved (Some " hi "%string)) (sess busy_before_settle)) [].

(** One second of 16 kHz silence from a frame that reports 44.1 kHz. *)
Definition other_rate_frame (t : R) : AudioFrame :=
  mkFrame (silence (Z.to_nat 16000)) t 44100.

(** Rate 0 latched, one second of samples already buffered. *)
Definition zero_rate_session : Session :=
  mkSession 0 "" (silence (Z.to_nat 16000)) [] (Some 0) "" false None (Some 0) false.

Definition zero_rate_frame : AudioFrame := mkFrame (silence (Z.to_nat 16000)) 0 0.

(** Speech on, last voiced at 0 ms, no rate latched yet. *)
Definition speaking_session : Session :=
  mkSession 0 "" [] [] None "" true (Some 0) None false.

(** ** Callers of the hook *)

(** [levels.slice(-60)] in [Waveform] (components/Pill.tsx). *)
Definition slice_last {A} (n : nat) (l : list A) : list A := skipn (length l - n) l.

(** The height of one bar: [Math.max(2, Math.floor(lv * (height - 6)))]. *)
Definition bar_height (height lv : R) : R := Rmax 2 (floor (lv * (height - 6))).

(** The bars [Waveform] draws for [levels], at its [height] prop
    (default 36). *)
Definition waveform_bars (height : R) (levels : list R) : list R :=
  map (bar_height height) (slice_last 60 levels).

(** [handleStopRecording] in App.tsx: the session is saved only when
    [transcript.trim()] is non-empty, and then with that trimmed text. *)
Definition saved_transcript (t : string) : option string :=
  if String.eqb (trim t) "" then None else Some (trim t).

End Audio.

(** * The chunk-length field of components/SettingsPanel.tsx *)

Module SettingsPanel.

(** A JavaScript number, [NaN] and the infinities included. *)
Inductive jsnum := Num (x : R) | NaN | PosInf | NegInf.

(** [Math.min] and [Math.max] of two numbers. *)
Definition math_min (a b : jsnum) : jsnum :=
  match a, b with
  | NaN, _ | _, NaN => NaN
  | NegInf, _ | _, NegInf => NegInf
  | PosInf, v | v, PosInf => v
  | Num x, Num y => Num (Rmin x y)
  end.

Definition math_max (a b : jsnum) : jsnum :=
  match a, b with
  | NaN, _ | _, NaN => NaN
  | PosInf, _ | _, PosInf => PosInf
  | NegInf, v | v, NegInf => v
  | Num x, Num y => Num (Rmax x y)
  end.

(** [Number.isFinite]. *)
Definition is_finite (v : jsnum) : bool :=
  match v with Num _ => true | _ => false end.

Inductive summary_engine_kind := Ollama | Anthropic | OpenAI | NoEngine.

(** [interface Settings] (hooks/useSettings.ts). *)
Record Settings := mkSettings {
  enable_telemetry : bool;
  retention_days : jsnum;
  use_gpu : bool;
  model : string;
  enable_hubspot : bool;
  enable_gmail : bool;
  chunk_seconds : jsnum;
  summary_engine : summary_engine_kind;
  ollama_model : string;
  ollama_host : string;
  force_microphone : bool
}.

(** [{ ...s, chunk_seconds: v }]. *)
Definition with_chunk_seconds (v : jsnum) (s : Settings) : Settings :=
  mkSettings (enable_telemetry s) (retention_days s) (use_gpu s) (model s)
    (enable_hubspot s) (enable_gmail s) v (summary_engine s) (ollama_model s)
    (ollama_host s) (force_microphone s).

(** [normalize] (lines 18-21); [Number(x)] is [x] on a number. *)
Definition normalize (s : Settings) : Settings :=
  with_chunk_seconds
    (if is_finite (chunk_seconds s) then chunk_seconds s else Num 2.5) s.

(** The panel's [draft] and [dirty] states. *)
Record Panel := mkPanel {
  draft : option Settings;
  dirty : bool
}.

(** The [onChange] handler of the chunk-length input (lines 111-118), for
    the input's [valueAsNumber] [raw]. *)
Definition on_chunk_change (raw : jsnum) (p : Panel) : Panel :=
  match draft p with
  | None => p
  | Some prev =>
      match raw with
      | NaN => p
      | _ =>
          let val := math_max (Num 1) (math_min (Num 6) raw) in
          mkPanel (Some (with_chunk_seconds val prev)) true
      end
  end.

End SettingsPanel.

Module AudioFacts.
Import Audio.

(** ** Decision helpers *)

Lemma Rge_b_spec (x y : R) : Rge_b x y = true <-> y <= x.
Proof. unfold Rge_b; destruct (Rle_dec y x); split; intros; congruence || lra. Qed.

Lemma Rge_b_false (x y : R) : Rge_b x y = false <-> x < y.
Proof. unfold Rge_b; destruct (Rle_dec y x); split; intros; congruence || lra. Qed.

Lemma Rgt_b_spec (x y : R) : Rgt_b x y = true <-> y < x.
Proof. unfold Rgt_b; destruct (Rlt_dec y x); split; intros; congruence || lra. Qed.

Lemma truthy_spec (x : R) : truthy x = true <-> x <> 0.
Proof. unfold truthy; destruct (Req_EM_T x 0); split; intros; congruence || tauto. Qed.

Lemma truthy_false (x : R) : truthy x = false <-> x = 0.
Proof. unfold truthy; destruct (Req_EM_T x 0); split; intros; congruence || tauto. Qed.

Lemma floor_IZR (z : Z) : floor (IZR z) = IZR z.
Proof.
  unfold floor, Int_part.
  rewrite <- (tech_up (IZR z) (z + 1)); [| rewrite plus_IZR; lra | rewrite plus_IZR; lra].
  f_equal; lia.
Qed.

Lemma floor_spec (x : R) : floor x <= x < floor x + 1.
Proof.
  unfold floor; destruct (base_Int_part x); lra.
Qed.

Lemma Rmin_nonneg_le1 (x : R) : 0 <= x -> 0 <= Rmin 1 x <= 1.
Proof.
  intros; unfold Rmin; destruct (Rle_dec 1 x); lra.
Qed.

Ltac rdec :=
  repeat match goal with
  | |- context [Rle_dec ?a ?b] => destruct (Rle_dec a b)
  | |- context [Rlt_dec ?a ?b] => destruct (Rlt_dec a b)
  | |- context [Req_EM_T ?a ?b] => destruct (Req_EM_T a b)
  end.

(** ** Shape of one frame *)

Lemma frame_update_fields (f : AudioFrame) (s : Session) :
  let s5 := frame_update f s in
  frameCount s5 = S (frameCount s) /\
  transcript s5 = transcript s /\
  lastSnippet s5 = lastSnippet s /\
  transcribingRef s5 = transcribingRef s /\
  audioBuffer s5 = audioBuffer s ++ data f /\
  levels s5 = push_level (levels s) (level (data f)) /\
  sampleRateRef s5 = (if truthy_opt (sampleRateRef s) then sampleRateRef s
                      else Some (sample_rate f)).
Proof.
  unfold frame_update, latch_rate, vad_update; simpl.
  destruct (truthy_opt (sampleRateRef s)); simpl; repeat split.
Qed.

(** A frame dispatches exactly through [flush_start], on the updated
    session, and otherwise returns that session. *)
Lemma handle_frame_cases (cs : R) (f : AudioFrame) (s : Session) :
  handle_frame cs f s = (frame_update f s, None) \/
  (transcribingRef s = false /\
   exists sr, sampleRateRef (frame_update f s) = Some sr /\ truthy sr = true /\
     audioBuffer s ++ data f <> [] /\
     handle_frame cs f s =
       (set_buffer [] (set_transcribing true (frame_update f s)),
        Some (mkCall (audioBuffer s ++ data f) sr))).
Proof.
  destruct (frame_update_fields f s) as (_ & _ & _ & Ht & Hb & _ & _).
  unfold handle_frame.
  destruct ((enoughForChunk (effective_chunk_seconds cs) (frame_update f s)
            || pauseDetected (effective_chunk_seconds cs) (timestamp f) (frame_update f s))
            && negb (transcribingRef (frame_update f s))) eqn:E; [| left; reflexivity].
  unfold flush_start.
  apply andb_true_iff in E as [_ E]; apply negb_true_iff in E.
  rewrite E.
  destruct (sampleRateRef (frame_update f s)) as [sr|] eqn:Hsr; [| left; reflexivity].
  destruct (truthy sr && negb (length (audioBuffer (frame_update f s)) =? 0)%nat) eqn:E2;
    [| left; reflexivity].
  right. apply andb_true_iff in E2 as [E2 E3]. rewrite Ht in E.
  split; [exact E |]. exists sr. rewrite Hb in *. repeat split; auto.
  intro Hn; rewrite Hn in E3; discriminate.
Qed.

Lemma handle_frame_transcribing (cs : R) (f : AudioFrame) (s : Session) :
  transcribingRef s = true -> handle_frame cs f s = (frame_update f s, None).
Proof.
  intro H. destruct (handle_frame_cases cs f s) as [E | [E _]]; [exact E | congruence].
Qed.

(** ** Settling a call *)

Lemma flush_finish_shape (o : outcome) (s : Session) :
  exists t snip,
    flush_finish o s =
    mkSession (frameCount s) t (audioBuffer s) (levels s) (sampleRate s)
      snip false None (sampleRateRef s) false /\
    ((t = transcript s /\ snip = lastSnippet s) \/
     (exists r, o = Resolved r /\
        let cleaned := trim (match r with Some x => x | None => ""%string end) in
        cleaned <> ""%string /\ cleaned <> lastSnippet s /\
        t = append_snippet (transcript s) cleaned /\ snip = cleaned)).
Proof.
  destruct o as [r|].
  - unfold flush_finish, accept_result.
    set (cleaned := trim (match r with Some x => x | None => ""%string end)).
    destruct (negb (String.eqb cleaned "") && negb (String.eqb cleaned (lastSnippet s))) eqn:E.
    + apply andb_true_iff in E as [E1 E2]; apply negb_true_iff in E1, E2.
      apply String.eqb_neq in E1, E2.
      exists (append_snippet (transcript s) cleaned), cleaned; split; [reflexivity |].
      right; exists r; repeat split; assumption.
    + exists (transcript s), (lastSnippet s); split; [reflexivity |]. left; split; reflexivity.
  - exists (transcript s), (lastSnippet s); split; [reflexivity |]. left; split; reflexivity.
Qed.

Lemma step_settle (i : nat) (o : outcome) (w w' : World) (c : option Call) :
  step (CallSettles i o) w = Some (w', c) ->
  c = None /\ (i < length (inflight w))%nat /\
  sess w' = flush_finish o (sess w) /\ inflight w' = remove_nth i (inflight w).
Proof.
  simpl. destruct (i <? length (inflight w))%nat eqn:E; [| discriminate].
  intro H; inversion H; subst; apply Nat.ltb_lt in E; repeat split; auto.
Qed.

Lemma remove_nth_length {A} (i : nat) (l : list A) :
  (i < length l)%nat -> length (remove_nth i l) = pred (length l).
Proof.
  revert i; induction l as [|x l IH]; intros [|i] H; simpl in *; try lia.
  rewrite IH by lia. destruct l; simpl in *; lia.
Qed.

Lemma push_level_last (prev : list R) (n : R) : last (push_level prev n) 0 = n.
Proof.
  unfold push_level.
  destruct (60 <? length (prev ++ [n]))%nat eqn:E.
  - apply Nat.ltb_lt in E. rewrite length_app in *; simpl in *.
    rewrite skipn_app.
    replace (length prev + 1 - 60 - length prev)%nat with 0%nat by lia.
    simpl. apply last_last.
  - apply last_last.
Qed.

Lemma effective_chunk_seconds_cases (v : R) :
  (v <= 1 /\ effective_chunk_seconds v = 1) \/
  (1 <= v <= 6 /\ effective_chunk_seconds v = v) \/
  (6 <= v /\ effective_chunk_seconds v = 6).
Proof.
  unfold effective_chunk_seconds.
  destruct (Rle_lt_dec v 6) as [H6 | H6].
  - rewrite Rmin_right by lra.
    destruct (Rle_lt_dec v 1) as [H1 | H1].
    + left; split; [lra | apply Rmax_left; lra].
    + right; left; split; [lra | apply Rmax_right; lra].
  - rewrite Rmin_left by lra. right; right; split; [lra | apply Rmax_right; lra].
Qed.

Lemma effective_chunk_seconds_idem (v : R) :
  effective_chunk_seconds (effective_chunk_seconds v) = effective_chunk_seconds v.
Proof.
  destruct (effective_chunk_seconds_cases v) as [(H & E) | [(H & E) | (H & E)]]; rewrite E;
  match goal with |- effective_chunk_seconds ?c = _ =>
    destruct (effective_chunk_seconds_cases c) as [(? & ?) | [(? & ?) | (? & ?)]]; lra end.
Qed.

Lemma handle_frame_levels (cs : R) (f : AudioFrame) (s : Session) :
  levels (fst (handle_frame cs f s)) = levels (frame_update f s).
Proof.
  destruct (handle_frame_cases cs f s) as [E | (_ & sr & _ & _ & _ & E)];
    rewrite E; reflexivity.
Qed.

Lemma handle_frame_rate (cs : R) (f : AudioFrame) (s : Session) :
  sampleRateRef (fst (handle_frame cs f s)) = sampleRateRef (frame_update f s).
Proof.
  destruct (handle_frame_cases cs f s) as [E | (_ & sr & _ & _ & _ & E)];
    rewrite E; reflexivity.
Qed.

(** C8: the chunk length the flush policy uses for a requested
    [chunkSeconds] value [v] is [max(1, min(6, v))]: it lies in [1, 6],
    equals [v] inside that range, is never rejected (a frame handled with
    [v] behaves as one handled with the clamped value), and for
    [v] in {-5, 0, 1, 3.5, 6, 100} it is 1, 1, 1, 3.5, 6 and 6. *)
Theorem chunk_seconds_clamped :
  (forall v : R,
     effective_chunk_seconds v = Rmax 1 (Rmin 6 v) /\
     1 <= effective_chunk_seconds v <= 6 /\
     (1 <= v <= 6 -> effective_chunk_seconds v = v) /\
     (forall f s, handle_frame v f s = handle_frame (Rmax 1 (Rmin 6 v)) f s)) /\
  effective_chunk_seconds (-5) = 1 /\
  effective_chunk_seconds 0 = 1 /\
  effective_chunk_seconds 1 = 1 /\
  effective_chunk_seconds 3.5 = 3.5 /\
  effective_chunk_seconds 6 = 6 /\
  effective_chunk_seconds 100 = 6.
Proof.
  split.
  - intro v. split; [reflexivity |].
    split; [destruct (effective_chunk_seconds_cases v) as [(? & E) | [(? & E) | (? & E)]];
            rewrite E; lra |].
    split; [intros; destruct (effective_chunk_seconds_cases v) as [(? & E) | [(? & E) | (? & E)]];
            lra |].
    intros f s. unfold handle_frame.
    change (Rmax 1 (Rmin 6 v)) with (effective_chunk_seconds v).
    rewrite effective_chunk_seconds_idem. reflexivity.
  - repeat split;
      match goal with |- effective_chunk_seconds ?v = _ =>
        destruct (effective_chunk_seconds_cases v) as [(? & E) | [(? & E) | (? & E)]];
        rewrite E; lra end.
Qed.

(** C9: the level of a frame is the RMS of its samples (the mean of the
    squares taken over at least one sample), divided by 32767 when the RMS
    exceeds 1, capped at 1; it always lies in [0, 1], an empty frame gives
    exactly 0, and it is the value the frame appends to the level window. *)
Theorem level_meter_normalized :
  (forall d : list R,
     rms d = sqrt (fold_left (fun acc v => acc + v * v) d 0 / Rmax 1 (INR (length d))) /\
     1 <= Rmax 1 (INR (length d)) /\
     level d = (if Rgt_b (rms d) 1 then Rmin 1 (rms d / 32767) else Rmin 1 (rms d)) /\
     0 <= level d <= 1) /\
  rms [] = 0 /\ level [] = 0 /\
  (forall cs f s, last (levels (fst (handle_frame cs f s))) 0 = level (data f)).
Proof.
  split; [| split; [| split]].
  - intro d. split; [reflexivity |]. split; [apply Rmax_l |]. split; [reflexivity |].
    unfold level, normalize.
    pose proof (sqrt_pos (fold_left (fun acc v => acc + v * v) d 0 / Rmax 1 (INR (length d)))) as Hp.
    fold (rms d) in Hp.
    destruct (Rgt_b (rms d) 1); apply Rmin_nonneg_le1; [| exact Hp].
    unfold Rdiv; apply Rmult_le_pos; [exact Hp | left; apply Rinv_0_lt_compat; lra].
  - unfold rms; simpl. unfold Rdiv; rewrite Rmult_0_l; apply sqrt_0.
  - unfold level, normalize, rms; simpl. unfold Rdiv; rewrite Rmult_0_l, sqrt_0.
    unfold Rgt_b, Rmin; rdec; lra.
  - intros cs f s. rewrite handle_frame_levels.
    destruct (frame_update_fields f s) as (_ & _ & _ & _ & _ & Hl & _).
    rewrite Hl. apply push_level_last.
Qed.

(** C10: settling a call (resolved or rejected) changes only the
    transcript, [lastSnippetRef], [speakingRef], [lastVoiceMsRef] and
    [transcribingRef]; the buffer of samples gathered since the dispatch,
    the latched sample rate, the level window and the frame count are kept,
    and the settling removes that call without dispatching another. *)
Theorem settle_changes_only_dispatch_fields :
  (forall (o : outcome) (s : Session),
     exists t snip,
       flush_finish o s =
       mkSession (frameCount s) t (audioBuffer s) (levels s) (sampleRate s)
         snip false None (sampleRateRef s) false) /\
  (forall i o w w' c,
     step (CallSettles i o) w = Some (w', c) ->
     c = None /\ inflight w' = remove_nth i (inflight w) /\
     audioBuffer (sess w') = audioBuffer (sess w) /\
     sampleRateRef (sess w') = sampleRateRef (sess w) /\
     sampleRate (sess w') = sampleRate (sess w) /\
     levels (sess w') = levels (sess w)).
Proof.
  split.
  - intros o s. destruct (flush_finish_shape o s) as (t & snip & E & _).
    exists t, snip; exact E.
  - intros i o w w' c H. apply step_settle in H as (Hc & _ & Hs & Hi).
    rewrite Hs. destruct (flush_finish_shape o (sess w)) as (t & snip & E & _).
    rewrite E; simpl. repeat split; assumption.
Qed.

(** C7: a rejected call leaves the transcript and [lastSnippetRef]
    unchanged; every settling call, resolved or rejected, ends with
    [speakingRef] false, [lastVoiceMsRef] null and [transcribingRef] false,
    issues no new call, and the next frame then finds the guard open. *)
Theorem settle_rejected_and_finally :
  (forall s : Session,
     transcript (flush_finish Rejected s) = transcript s /\
     lastSnippet (flush_finish Rejected s) = lastSnippet s) /\
  (forall (o : outcome) (s : Session),
     speakingRef (flush_finish o s) = false /\
     lastVoiceMs (flush_finish o s) = None /\
     transcribingRef (flush_finish o s) = false /\
     (forall f, transcribingRef (frame_update f (flush_finish o s)) = false)) /\
  (forall i o w w' c,
     step (CallSettles i o) w = Some (w', c) ->
     c = None /\ length (inflight w') = pred (length (inflight w))).
Proof.
  split; [| split].
  - intro s; split; reflexivity.
  - intros o s. destruct (flush_finish_shape o s) as (t & snip & E & _).
    rewrite E. split; [reflexivity |]. split; [reflexivity |]. split; [reflexivity |].
    intro f. destruct (frame_update_fields f (mkSession (frameCount s) t (audioBuffer s)
      (levels s) (sampleRate s) snip false None (sampleRateRef s) false))
      as (_ & _ & _ & Ht & _). rewrite Ht; reflexivity.
  - intros i o w w' c H. apply step_settle in H as (Hc & Hlt & _ & Hi).
    split; [exact Hc |]. rewrite Hi. apply remove_nth_length; exact Hlt.
Qed.

(** ** Runs *)

Lemma run_app (es1 es2 : list Event) (w : World) :
  run (es1 ++ es2) w =
  match run es1 w with
  | None => None
  | Some (w1, c1) =>
      match run es2 w1 with
      | None => None
      | Some (w2, c2) => Some (w2, c1 ++ c2)
      end
  end.
Proof.
  revert w; induction es1 as [|e es1 IH]; intro w; simpl.
  - destruct (run es2 w) as [[w2 c2]|]; reflexivity.
  - destruct (step e w) as [[w1 c]|]; [| reflexivity].
    rewrite IH.
    destruct (run es1 w1) as [[w2 c1]|]; [| reflexivity].
    destruct (run es2 w2) as [[w3 c2]|]; [| reflexivity].
    destruct c; reflexivity.
Qed.

Lemma step_frame (cs : R) (f : AudioFrame) (w w1 : World) (c : option Call) :
  step (FrameArrives cs f) w = Some (w1, c) ->
  sess w1 = fst (handle_frame cs f (sess w)) /\
  c = snd (handle_frame cs f (sess w)) /\
  inflight w1 = inflight w ++ match c with Some x => [x] | None => [] end.
Proof.
  simpl. destruct (handle_frame cs f (sess w)) as [s' c'].
  intro H; inversion H; subst; repeat split.
Qed.

Lemma handle_frame_text (cs : R) (f : AudioFrame) (s : Session) :
  transcript (fst (handle_frame cs f s)) = transcript s /\
  lastSnippet (fst (handle_frame cs f s)) = lastSnippet s.
Proof.
  destruct (frame_update_fields f s) as (_ & Ht & Hl & _).
  destruct (handle_frame_cases cs f s) as [E | (_ & sr & _ & _ & _ & E)];
    rewrite E; simpl; split; assumption.
Qed.

Lemma frames_keep_text (es : list Event) (w w' : World) (calls : list Call) :
  forallb is_frame es = true -> run es w = Some (w', calls) ->
  transcript (sess w') = transcript (sess w) /\
  lastSnippet (sess w') = lastSnippet (sess w).
Proof.
  revert w calls; induction es as [|e es IH]; intros w calls Hf Hr; simpl in Hr.
  - inversion Hr; subst; split; reflexivity.
  - destruct e as [cs f | |]; simpl in Hf; try discriminate.
    destruct (step (FrameArrives cs f) w) as [[w1 c]|] eqn:E1; [| discriminate].
    destruct (run es w1) as [[w2 c2]|] eqn:E2; [| discriminate].
    inversion Hr; subst.
    apply step_frame in E1 as (Hs & _ & _).
    destruct (IH w1 c2 Hf E2) as [H1 H2].
    destruct (handle_frame_text cs f (sess w)) as [H3 H4].
    rewrite H1, H2, Hs; split; assumption.
Qed.

Lemma finish_resolved_text (r : option string) (s : Session) :
  let cleaned := trim (match r with Some x => x | None => ""%string end) in
  transcript (flush_finish (Resolved r) s) =
    (if negb (String.eqb cleaned "") && negb (String.eqb cleaned (lastSnippet s))
     then append_snippet (transcript s) cleaned else transcript s) /\
  lastSnippet (flush_finish (Resolved r) s) =
    (if negb (String.eqb cleaned "") && negb (String.eqb cleaned (lastSnippet s))
     then cleaned else lastSnippet s).
Proof.
  unfold flush_finish, accept_result; simpl.
  destruct (_ && _); split; reflexivity.
Qed.

(** C6: a resolved value is trimmed; a non-empty result that differs from
    [lastSnippetRef] is appended to the transcript, space-separated, and
    becomes [lastSnippetRef]; an empty result or one equal to
    [lastSnippetRef] changes neither.  Hence two consecutive resolved calls
    whose values trim to "hello", with any frames between them, add "hello"
    to the transcript once (or not at all when it already was the last
    accepted text), never twice. *)
Theorem dedup_consecutive_results :
  (forall (r : option string) (s : Session),
     let cleaned := trim (match r with Some x => x | None => ""%string end) in
     (cleaned <> ""%string -> cleaned <> lastSnippet s ->
        transcript (flush_finish (Resolved r) s) = append_snippet (transcript s) cleaned /\
        lastSnippet (flush_finish (Resolved r) s) = cleaned) /\
     (cleaned = ""%string \/ cleaned = lastSnippet s ->
        transcript (flush_finish (Resolved r) s) = transcript s /\
        lastSnippet (flush_finish (Resolved r) s) = lastSnippet s)) /\
  (forall i j r1 r2 frames w w' calls,
     trim r1 = "hello"%string -> trim r2 = "hello"%string ->
     forallb is_frame frames = true ->
     run ([CallSettles i (Resolved (Some r1))] ++ frames ++
          [CallSettles j (Resolved (Some r2))]) w = Some (w', calls) ->
     transcript (sess w') =
       if String.eqb (lastSnippet (sess w)) "hello" then transcript (sess w)
       else append_snippet (transcript (sess w)) "hello").
Proof.
  split.
  - intros r s cleaned.
    destruct (finish_resolved_text r s) as [Ht Hl]; fold cleaned in Ht, Hl.
    split.
    + intros H1 H2. apply String.eqb_neq in H1, H2. rewrite Ht, Hl, H1, H2. split; reflexivity.
    + intros [H | H]; rewrite Ht, Hl.
      * rewrite H. split; reflexivity.
      * rewrite H, String.eqb_refl, andb_false_r. split; reflexivity.
  - intros i j r1 r2 frames w w' calls H1 H2 Hf Hr.
    rewrite run_app in Hr. simpl in Hr.
    destruct (i <? length (inflight w))%nat; [| discriminate].
    rewrite run_app in Hr.
    destruct (run frames _) as [[w2 c2]|] eqn:E2; [| discriminate].
    destruct (frames_keep_text frames _ w2 c2 Hf E2) as [Ht2 Hl2]. simpl in Ht2, Hl2.
    simpl in Hr.
    destruct (j <? length (inflight w2))%nat; [| discriminate].
    inversion Hr; subst; simpl.
    destruct (finish_resolved_text (Some r1) (sess w)) as [Ta La].
    destruct (finish_resolved_text (Some r2) (sess w2)) as [Tb Lb].
    simpl in Ta, La, Tb, Lb. rewrite H1 in Ta, La. rewrite H2 in Tb.
    rewrite Tb, Ht2, Hl2, Ta, La.
    assert (Hh : String.eqb "hello" "" = false) by reflexivity.
    rewrite Hh. cbn [negb andb].
    rewrite (String.eqb_sym "hello"%string (lastSnippet (sess w))).
    destruct (String.eqb (lastSnippet (sess w)) "hello") eqn:E; cbn [negb andb].
    + apply String.eqb_eq in E. rewrite E, String.eqb_refl. reflexivity.
    + rewrite String.eqb_refl. reflexivity.
Qed.

(** C2: a frame that dispatches leaves [transcribingRef] true and the
    buffer empty, and the dispatched call carries the whole buffer (this
    frame's samples included); the next frame handled on that state
    dispatches nothing and only appends its own samples.  A frame that does
    not dispatch only appends its samples, and a call that settles leaves
    the buffer as it is: the buffer is never partially drained. *)
Theorem flush_takes_whole_buffer :
  (forall cs f s s' c,
     handle_frame cs f s = (s', Some c) ->
     transcribingRef s' = true /\ audioBuffer s' = [] /\
     audio_frames c = audioBuffer s ++ data f /\
     (forall cs' f', snd (handle_frame cs' f' s') = None /\
                     audioBuffer (fst (handle_frame cs' f' s')) = data f')) /\
  (forall cs f s s',
     handle_frame cs f s = (s', None) -> audioBuffer s' = audioBuffer s ++ data f) /\
  (forall i o w w' c,
     step (CallSettles i o) w = Some (w', c) -> audioBuffer (sess w') = audioBuffer (sess w)).
Proof.
  split; [| split].
  - intros cs f s s' c H.
    destruct (handle_frame_cases cs f s) as [E | (Ht & sr & _ & _ & _ & E)];
      rewrite E in H; inversion H; subst; clear H.
    split; [reflexivity |]. split; [reflexivity |]. split; [reflexivity |].
    intros cs' f'.
    rewrite handle_frame_transcribing by reflexivity.
    destruct (frame_update_fields f' (set_buffer [] (set_transcribing true (frame_update f s))))
      as (_ & _ & _ & _ & Hb & _).
    split; [reflexivity |]. simpl fst. rewrite Hb. reflexivity.
  - intros cs f s s' H.
    destruct (handle_frame_cases cs f s) as [E | (Ht & sr & _ & _ & _ & E)];
      rewrite E in H; inversion H; subst; clear H.
    destruct (frame_update_fields f s) as (_ & _ & _ & _ & Hb & _). exact Hb.
  - intros i o w w' c H. apply step_settle in H as (_ & _ & Hs & _).
    rewrite Hs. destruct (flush_finish_shape o (sess w)) as (t & snip & E & _).
    rewrite E; reflexivity.
Qed.

(** C3: along any run of one session (frames and settling calls), the
    chunks dispatched, in order, followed by the final buffer, are exactly
    the initial buffer followed by the samples of the frames in arrival
    order; in particular no sample is lost or duplicated. *)
Theorem samples_conserved :
  forall (es : list Event) (w w' : World) (calls : list Call),
    forallb session_event es = true ->
    run es w = Some (w', calls) ->
    concat (map audio_frames calls) ++ audioBuffer (sess w') =
      audioBuffer (sess w) ++ frame_samples es /\
    (length (concat (map audio_frames calls)) + length (audioBuffer (sess w')) =
      length (audioBuffer (sess w)) + length (frame_samples es))%nat.
Proof.
  intros es w w' calls Hs Hr.
  assert (Hc : concat (map audio_frames calls) ++ audioBuffer (sess w') =
               audioBuffer (sess w) ++ frame_samples es).
  { revert w calls Hr; induction es as [|e es IH]; intros w calls Hr; simpl in Hr.
    - inversion Hr; subst; simpl; rewrite app_nil_r; reflexivity.
    - simpl in Hs; apply andb_true_iff in Hs as [He Hs].
      destruct (step e w) as [[w1 c]|] eqn:E1; [| discriminate].
      destruct (run es w1) as [[w2 c2]|] eqn:E2; [| discriminate].
      inversion Hr; subst; clear Hr.
      specialize (IH Hs w1 c2 E2).
      destruct e as [cs f | i o |]; simpl in He; try discriminate.
      + apply step_frame in E1 as (Hs1 & Hc1 & _). simpl frame_samples.
        destruct (handle_frame_cases cs f (sess w)) as [E | (_ & sr & _ & _ & _ & E)];
          rewrite E in Hs1, Hc1; simpl in Hs1, Hc1; subst c.
        * rewrite Hs1 in IH.
          destruct (frame_update_fields f (sess w)) as (_ & _ & _ & _ & Hb & _).
          rewrite Hb in IH. rewrite IH, app_assoc. reflexivity.
        * rewrite Hs1 in IH. simpl in IH |- *.
          rewrite <- app_assoc, IH. rewrite app_assoc. reflexivity.
      + apply step_settle in E1 as (Hc1 & _ & Hs1 & _). subst c.
        rewrite Hs1 in IH. simpl frame_samples. rewrite IH.
        destruct (flush_finish_shape o (sess w)) as (t & snip & E & _).
        rewrite E; reflexivity. }
  split; [exact Hc |].
  rewrite <- !length_app. rewrite Hc. reflexivity.
Qed.

(** Calls in flight agree with the guard: one exactly when
    [transcribingRef] is set. *)
Definition guard_matches (w : World) : Prop :=
  length (inflight w) = (if transcribingRef (sess w) then 1 else 0)%nat.

Lemma guard_matches_step (e : Event) (w w1 : World) (c : option Call) :
  session_event e = true -> guard_matches w -> step e w = Some (w1, c) ->
  guard_matches w1.
Proof.
  unfold guard_matches; intros He Hg Hs.
  destruct e as [cs f | i o |]; simpl in He; try discriminate.
  - apply step_frame in Hs as (Hs1 & Hc1 & Hi1). rewrite Hi1, Hs1, length_app.
    destruct (handle_frame_cases cs f (sess w)) as [E | (Ht & sr & _ & _ & _ & E)];
      rewrite E in Hc1 |- *; cbn [fst snd] in Hc1 |- *; subst c.
    + destruct (frame_update_fields f (sess w)) as (_ & _ & _ & Ht & _).
      rewrite Ht; cbn [length]; lia.
    + rewrite Ht in Hg. rewrite Hg. reflexivity.
  - apply step_settle in Hs as (_ & Hlt & Hs1 & Hi1). rewrite Hi1, Hs1.
    rewrite remove_nth_length by exact Hlt.
    destruct (flush_finish_shape o (sess w)) as (t & snip & E & _). rewrite E; simpl.
    destruct (transcribingRef (sess w)); lia.
Qed.

(** C1 (as amended): within one recording session (frames and settling
    calls) started from a state where one call is in flight exactly when
    [transcribingRef] is set (on mount, or after a reset with no call in
    flight), at most one call is in flight after every prefix of the run;
    a frame handled while [transcribingRef] is set appends its samples and
    dispatches nothing. *)
Theorem at_most_one_call_per_session :
  (forall cs f s,
     transcribingRef s = true ->
     snd (handle_frame cs f s) = None /\
     audioBuffer (fst (handle_frame cs f s)) = audioBuffer s ++ data f) /\
  (forall (es : list Event) (w w' : World) (calls : list Call),
     forallb session_event es = true ->
     length (inflight w) = (if transcribingRef (sess w) then 1 else 0)%nat ->
     run es w = Some (w', calls) ->
     length (inflight w') = (if transcribingRef (sess w') then 1 else 0)%nat /\
     (length (inflight w') <= 1)%nat).
Proof.
  split.
  - intros cs f s H. rewrite handle_frame_transcribing by exact H.
    destruct (frame_update_fields f s) as (_ & _ & _ & _ & Hb & _).
    split; [reflexivity | exact Hb].
  - intros es w w' calls Hs Hg Hr.
    assert (G : guard_matches w').
    { revert w calls Hg Hr; induction es as [|e es IH]; intros w calls Hg Hr; simpl in Hr.
      - inversion Hr; subst; exact Hg.
      - simpl in Hs; apply andb_true_iff in Hs as [He Hs].
        destruct (step e w) as [[w1 c]|] eqn:E1; [| discriminate].
        destruct (run es w1) as [[w2 c2]|] eqn:E2; [| discriminate].
        inversion Hr; subst.
        apply (IH Hs w1 c2); [| exact E2].
        exact (guard_matches_step e w w1 c He Hg E1). }
    unfold guard_matches in G. split; [exact G |].
    rewrite G. destruct (transcribingRef (sess w')); lia.
Qed.

(** ** Concrete runs *)

Lemma run_cons (e : Event) (es : list Event) (w : World) :
  run (e :: es) w =
  match step e w with
  | None => None
  | Some (w1, c) =>
      match run es w1 with
      | None => None
      | Some (w2, cs) => Some (w2, match c with Some x => x :: cs | None => cs end)
      end
  end.
Proof. reflexivity. Qed.

Lemma step_frame_eq (cs : R) (f : AudioFrame) (w : World) (s' : Session) (c : option Call) :
  handle_frame cs f (sess w) = (s', c) ->
  step (FrameArrives cs f) w =
  Some (mkWorld s' (inflight w ++ match c with Some x => [x] | None => [] end), c).
Proof. intro H. unfold step. rewrite H. reflexivity. Qed.

Lemma step_reset_eq (w : World) :
  step Reset w = Some (mkWorld (reset_audio (sess w)) (inflight w), None).
Proof. reflexivity. Qed.

Lemma step_settle_eq (i : nat) (o : outcome) (w : World) :
  (i < length (inflight w))%nat ->
  step (CallSettles i o) w =
  Some (mkWorld (flush_finish o (sess w)) (remove_nth i (inflight w)), None).
Proof. intro H. unfold step. apply Nat.ltb_lt in H. rewrite H. reflexivity. Qed.

Lemma run_nil (w : World) : run [] w = Some (w, []).
Proof. reflexivity. Qed.

Lemma fold_squares_silence (n : nat) (a : R) :
  fold_left (fun acc v => acc + v * v) (silence n) a = a.
Proof.
  revert a; induction n as [|n IH]; intro a; [reflexivity |].
  change (silence (S n)) with (0 :: silence n). simpl fold_left.
  rewrite IH. ring.
Qed.

Lemma level_silence (n : nat) : level (silence n) = 0.
Proof.
  unfold level, rms. rewrite fold_squares_silence.
  unfold Rdiv; rewrite Rmult_0_l, sqrt_0.
  unfold normalize, Rgt_b, Rmin; rdec; lra.
Qed.

Lemma handle_frame_dispatch (cs : R) (f : AudioFrame) (s : Session) (sr : R) :
  transcribingRef s = false ->
  sampleRateRef (frame_update f s) = Some sr -> truthy sr = true ->
  enoughForChunk (effective_chunk_seconds cs) (frame_update f s) = true ->
  audioBuffer s ++ data f <> [] ->
  handle_frame cs f s =
  (set_buffer [] (set_transcribing true (frame_update f s)),
   Some (mkCall (audioBuffer s ++ data f) sr)).
Proof.
  intros Ht Hsr Htr Hen Hne.
  destruct (frame_update_fields f s) as (_ & _ & _ & Ht5 & Hb & _).
  unfold handle_frame. rewrite Hen, orb_true_l, Ht5, Ht. cbn [negb andb].
  unfold flush_start. rewrite Ht5, Ht, Hsr, Htr, Hb.
  destruct (length (audioBuffer s ++ data f) =? 0)%nat eqn:E.
  - apply Nat.eqb_eq, length_zero_iff_nil in E. contradiction.
  - reflexivity.
Qed.

Lemma full_frame_dispatches (t : R) (s : Session) :
  transcribingRef s = false -> audioBuffer s = [] ->
  (sampleRateRef s = None \/ sampleRateRef s = Some 16000) ->
  handle_frame 1 (full_frame t) s =
  (set_buffer [] (set_transcribing true (frame_update (full_frame t) s)),
   Some (mkCall (silence (Z.to_nat 16000)) 16000)).
Proof.
  intros Ht Hb Hsr.
  assert (T : truthy 16000 = true) by (apply truthy_spec; lra).
  assert (Hsr5 : sampleRateRef (frame_update (full_frame t) s) = Some 16000).
  { destruct (frame_update_fields (full_frame t) s) as (_ & _ & _ & _ & _ & _ & E).
    rewrite E. destruct Hsr as [H | H]; rewrite H; [reflexivity |].
    cbn [truthy_opt]. rewrite T. reflexivity. }
  destruct (frame_update_fields (full_frame t) s) as (_ & _ & _ & _ & Hb5 & _).
  rewrite Hb in Hb5. rewrite app_nil_l in Hb5.
  change (data (full_frame t)) with (silence (Z.to_nat 16000)) in Hb5.
  rewrite (handle_frame_dispatch 1 (full_frame t) s 16000 Ht Hsr5 T).
  - rewrite Hb, app_nil_l. reflexivity.
  - unfold enoughForChunk, neededSamples. rewrite Hsr5. cbn [truthy_opt]. rewrite T.
    rewrite Hb5. unfold silence. rewrite repeat_length, INR_IZR_INZ, Z2Nat.id by lia.
    destruct (effective_chunk_seconds_cases 1) as [(_ & E) | [(_ & E) | (? & E)]]; try lra;
      rewrite E, Rmult_1_r, floor_IZR; apply Rge_b_spec; lra.
  - rewrite Hb, app_nil_l. unfold full_frame, silence. cbn [data].
    intro H. apply (f_equal (@length R)) in H. rewrite repeat_length in H.
    cbn [length] in H. lia.
Qed.

(** Counterexample to C1: a restart while a call is in flight.  After
    [restart_events] (dispatch A; reset; dispatch B; A rejected late, which
    clears [transcribingRef] again; dispatch C), the two calls B and C of
    the new session are in flight at once. *)
Lemma restart_two_calls_in_flight :
  match run restart_events (mkWorld initial_session []) with
  | Some (w', calls) =>
      length (inflight w') = 2%nat /\ inflight w' = skipn 1 calls /\
      length calls = 3%nat
  | None => False
  end.
Proof.
  pose (A := mkCall (silence (Z.to_nat 16000)) 16000).
  pose (s1 := set_buffer [] (set_transcribing true
                (frame_update (full_frame 1000) initial_session))).
  pose (s2 := reset_audio s1).
  pose (s3 := set_buffer [] (set_transcribing true (frame_update (full_frame 2000) s2))).
  pose (s4 := flush_finish Rejected s3).
  pose (s5 := set_buffer [] (set_transcribing true (frame_update (full_frame 3000) s4))).
  assert (H1 : handle_frame 1 (full_frame 1000) (sess (mkWorld initial_session [])) = (s1, Some A)).
  { apply full_frame_dispatches; [reflexivity | reflexivity | left; reflexivity]. }
  assert (H3 : handle_frame 1 (full_frame 2000) (sess (mkWorld s2 ([] ++ [A]))) = (s3, Some A)).
  { apply full_frame_dispatches; [reflexivity | reflexivity | left; reflexivity]. }
  assert (R4 : sampleRateRef s4 = Some 16000).
  { change (sampleRateRef s4) with (sampleRateRef (frame_update (full_frame 2000) s2)).
    destruct (frame_update_fields (full_frame 2000) s2) as (_ & _ & _ & _ & _ & _ & E).
    rewrite E. reflexivity. }
  assert (H5 : handle_frame 1 (full_frame 3000)
                 (sess (mkWorld s4 (remove_nth 0 (([] ++ [A]) ++ [A])))) = (s5, Some A)).
  { apply full_frame_dispatches; [reflexivity | reflexivity | right; exact R4]. }
  unfold restart_events.
  rewrite run_cons, (step_frame_eq _ _ _ _ _ H1). cbv beta iota delta [inflight sess].
  rewrite run_cons, step_reset_eq. cbv beta iota delta [inflight sess]. fold s2.
  rewrite run_cons, (step_frame_eq _ _ _ _ _ H3). cbv beta iota delta [inflight sess].
  rewrite run_cons, step_settle_eq by (cbn [inflight app length]; lia).
  cbv beta iota delta [inflight sess]. fold s4.
  rewrite run_cons, (step_frame_eq _ _ _ _ _ H5). cbv beta iota delta [inflight sess].
  rewrite run_nil. cbv beta iota delta [inflight sess].
  split; [reflexivity | split; reflexivity].
Qed.

(** ** Voice activity and triggers *)

Lemma frame_update_vad (f : AudioFrame) (s : Session) :
  let n := level (data f) in
  let sp := speakingRef s || Rge_b n vadOn in
  speakingRef (frame_update f s) = sp /\
  lastVoiceMs (frame_update f s) =
    (if sp then
       if Rge_b n vadOff then Some (timestamp f)
       else match lastVoiceMs s with None => Some (timestamp f) | Some x => Some x end
     else lastVoiceMs s).
Proof.
  unfold frame_update, vad_update, latch_rate. cbv zeta.
  destruct (truthy_opt (sampleRateRef _)); destruct (speakingRef s);
    destruct (Rge_b (level (data f)) vadOn); split; reflexivity.
Qed.

Lemma handle_frame_speaking (cs : R) (f : AudioFrame) (s : Session) :
  speakingRef (fst (handle_frame cs f s)) = speakingRef (frame_update f s).
Proof.
  destruct (handle_frame_cases cs f s) as [E | (_ & sr & _ & _ & _ & E)];
    rewrite E; reflexivity.
Qed.

Lemma handle_frame_no_dispatch (cs : R) (f : AudioFrame) (s : Session) :
  enoughForChunk (effective_chunk_seconds cs) (frame_update f s) = false ->
  pauseDetected (effective_chunk_seconds cs) (timestamp f) (frame_update f s) = false ->
  handle_frame cs f s = (frame_update f s, None).
Proof. intros H1 H2. unfold handle_frame. rewrite H1, H2. reflexivity. Qed.

Lemma handle_frame_fires (cs : R) (f : AudioFrame) (s : Session) (sr : R) :
  transcribingRef s = false ->
  sampleRateRef (frame_update f s) = Some sr -> truthy sr = true ->
  (enoughForChunk (effective_chunk_seconds cs) (frame_update f s)
   || pauseDetected (effective_chunk_seconds cs) (timestamp f) (frame_update f s)) = true ->
  audioBuffer s ++ data f <> [] ->
  snd (handle_frame cs f s) = Some (mkCall (audioBuffer s ++ data f) sr).
Proof.
  intros Ht Hsr Htr Hen Hne.
  destruct (frame_update_fields f s) as (_ & _ & _ & Ht5 & Hb & _).
  unfold handle_frame. rewrite Hen, Ht5, Ht. cbn [negb andb].
  unfold flush_start. rewrite Ht5, Ht, Hsr, Htr, Hb.
  destruct (length (audioBuffer s ++ data f) =? 0)%nat eqn:E.
  - apply Nat.eqb_eq, length_zero_iff_nil in E. contradiction.
  - reflexivity.
Qed.

Lemma effective_chunk_seconds_in (v : R) : 1 <= v <= 6 -> effective_chunk_seconds v = v.
Proof.
  intro H. destruct (effective_chunk_seconds_cases v) as [(? & E) | [(? & E) | (? & E)]]; lra.
Qed.

(** C5: once a non-zero sample rate [r] is latched, the duration trigger
    holds exactly when the buffer has at least [floor(r * cs)] samples.
    With [chunkSeconds = 2], frames at 16 kHz whose level is 0 leave
    [speakingRef] false (so the pause trigger never holds, also across
    settling calls), and such a frame dispatches exactly when no call is in
    flight and the buffer, its samples included, holds at least 32000
    samples. *)
Theorem duration_trigger_on_silence :
  (forall cs s r,
     sampleRateRef s = Some r -> truthy r = true ->
     (enoughForChunk cs s = true <-> floor (r * cs) <= INR (length (audioBuffer s)))) /\
  (forall s f,
     speakingRef s = false ->
     (sampleRateRef s = None \/ sampleRateRef s = Some 16000) ->
     sample_rate f = 16000 -> level (data f) = 0 ->
     speakingRef (fst (handle_frame 2 f s)) = false /\
     pauseDetected (effective_chunk_seconds 2) (timestamp f) (frame_update f s) = false /\
     (enoughForChunk (effective_chunk_seconds 2) (frame_update f s) = true <->
        32000 <= INR (length (audioBuffer s ++ data f))) /\
     (snd (handle_frame 2 f s) <> None <->
        transcribingRef s = false /\ 32000 <= INR (length (audioBuffer s ++ data f)))) /\
  (forall o s, speakingRef (flush_finish o s) = false).
Proof.
  split; [| split].
  - intros cs s r Hs Ht. unfold enoughForChunk, neededSamples.
    rewrite Hs. cbn [truthy_opt]. rewrite Ht. apply Rge_b_spec.
  - intros s f Hsp Hsr Hf Hl.
    destruct (frame_update_vad f s) as [Vsp _]. cbv zeta in Vsp.
    rewrite Hsp, Hl in Vsp.
    assert (Hon : Rge_b 0 vadOn = false) by (apply Rge_b_false; unfold vadOn; lra).
    rewrite Hon in Vsp. cbn [orb] in Vsp.
    destruct (frame_update_fields f s) as (_ & _ & _ & Ht5 & Hb5 & _ & Hr5).
    assert (T : truthy 16000 = true) by (apply truthy_spec; lra).
    assert (Hsr5 : sampleRateRef (frame_update f s) = Some 16000).
    { rewrite Hr5. destruct Hsr as [H | H]; rewrite H; [cbn [truthy_opt]; rewrite Hf; reflexivity |].
      cbn [truthy_opt]. rewrite T. reflexivity. }
    assert (Hp : pauseDetected (effective_chunk_seconds 2) (timestamp f) (frame_update f s) = false).
    { unfold pauseDetected. rewrite Vsp. reflexivity. }
    assert (He : enoughForChunk (effective_chunk_seconds 2) (frame_update f s) = true <->
                 32000 <= INR (length (audioBuffer s ++ data f))).
    { unfold enoughForChunk, neededSamples. rewrite Hsr5. cbn [truthy_opt]. rewrite T, Hb5.
      rewrite effective_chunk_seconds_in by lra.
      replace (16000 * 2) with (IZR 32000) by lra. rewrite floor_IZR. apply Rge_b_spec. }
    split; [rewrite handle_frame_speaking; exact Vsp |].
    split; [exact Hp |]. split; [exact He |].
    destruct (transcribingRef s) eqn:Ts.
    + rewrite handle_frame_transcribing by exact Ts. cbn [snd].
      split; [intro H; contradiction | intros [H _]; discriminate].
    + destruct (enoughForChunk (effective_chunk_seconds 2) (frame_update f s)) eqn:Ee.
      * assert (L : 32000 <= INR (length (audioBuffer s ++ data f))) by (apply He; reflexivity).
        rewrite (handle_frame_fires 2 f s 16000 Ts Hsr5 T) by
          (try (rewrite Ee; reflexivity);
           intro Hn; rewrite Hn in L; cbn [length INR] in L; lra).
        split; [intros _; split; [reflexivity | exact L] | intros _; discriminate].
      * rewrite handle_frame_no_dispatch by assumption. cbn [snd].
        split; [intro H; contradiction | intros [_ L]; apply He in L; discriminate].
  - intros o s. destruct (flush_finish_shape o s) as (t & snip & E & _). rewrite E; reflexivity.
Qed.

(** When [lastVoiceMsRef] holds a non-zero time, the pause trigger is
    exactly: speaking, at least 450 ms since that time, and the
    minimum-utterance floor met. *)
Lemma pause_detected_nonzero_last_voice (cs nowMs lv : R) (s : Session) :
  lastVoiceMs s = Some lv -> lv <> 0 ->
  (pauseDetected cs nowMs s = true <->
   speakingRef s = true /\ 450 <= nowMs - lv /\
   minUtteranceSamples cs (sampleRateRef s) <= INR (length (audioBuffer s))).
Proof.
  intros Hl Hz. unfold pauseDetected, silenceGapMs. rewrite Hl. cbn [truthy_opt].
  assert (T : truthy lv = true) by (apply truthy_spec; exact Hz).
  rewrite T. cbn [gap_ge].
  rewrite !andb_true_iff, !Rge_b_spec. tauto.
Qed.

Lemma level_half : level [0.5] = 0.5.
Proof.
  unfold level, rms. cbn [fold_left length].
  replace (INR 1) with 1 by reflexivity. rewrite Rmax_left by lra.
  replace ((0 + 0.5 * 0.5) / 1) with (0.5 * 0.5) by field.
  rewrite sqrt_square by lra.
  unfold normalize. replace (Rgt_b 0.5 1) with false by (symmetry; unfold Rgt_b; rdec; lra).
  apply Rmin_right; lra.
Qed.

(** C4 (failing input): a voiced frame stamped 0 ms followed by a quiet
    frame stamped 449 ms that completes one second of audio at 16 kHz.
    After the first frame [speakingRef] is true and [lastVoiceMsRef] is 0;
    line 120 tests [lastVoiceMsRef.current] for truthiness, so the gap is
    [Infinity] instead of 449 ms and the pause trigger fires 449 ms after
    the last voice (the duration trigger does not hold). *)
Theorem pause_fires_449ms_after_time_zero :
  handle_frame 2.5 first_voiced_frame initial_session =
    (frame_update first_voiced_frame initial_session, None) /\
  let s1 := frame_update first_voiced_frame initial_session in
  speakingRef s1 = true /\ lastVoiceMs s1 = Some 0 /\
  let s2 := frame_update quiet_frame_449 s1 in
  speakingRef s2 = true /\ lastVoiceMs s2 = Some 0 /\
  timestamp quiet_frame_449 - 0 = 449 /\
  INR (length (audioBuffer s2)) = 16000 /\
  minUtteranceSamples (effective_chunk_seconds 2.5) (sampleRateRef s2) = 16000 /\
  silenceGapMs (timestamp quiet_frame_449) s2 = Infinity /\
  pauseDetected (effective_chunk_seconds 2.5) (timestamp quiet_frame_449) s2 = true /\
  enoughForChunk (effective_chunk_seconds 2.5) s2 = false /\
  snd (handle_frame 2.5 quiet_frame_449 s1) <> None.
Proof.
  assert (T : truthy 16000 = true) by (apply truthy_spec; lra).
  assert (Z0 : truthy 0 = false) by (apply truthy_false; reflexivity).
  assert (Hcs : effective_chunk_seconds 2.5 = 2.5) by (apply effective_chunk_seconds_in; lra).
  assert (Hmin : Rmin 1 2.5 = 1) by (apply Rmin_left; lra).
  assert (N40 : floor (16000 * 2.5) = 40000).
  { replace (16000 * 2.5) with (IZR 40000) by lra. apply floor_IZR. }
  assert (N16 : floor (16000 * 1) = 16000) by (rewrite Rmult_1_r; apply floor_IZR).
  set (s1 := frame_update first_voiced_frame initial_session).
  destruct (frame_update_fields first_voiced_frame initial_session)
    as (_ & _ & _ & T1 & B1 & _ & R1).
  destruct (frame_update_vad first_voiced_frame initial_session) as [V1 L1].
  cbv zeta in V1, L1. fold s1 in T1, B1, R1, V1, L1.
  change (data first_voiced_frame) with [0.5] in V1, L1, B1.
  rewrite level_half in V1, L1.
  assert (On : Rge_b 0.5 vadOn = true) by (apply Rge_b_spec; unfold vadOn; lra).
  assert (Off : Rge_b 0.5 vadOff = true) by (apply Rge_b_spec; unfold vadOff; lra).
  rewrite On in V1, L1. cbn [orb speakingRef initial_session] in V1, L1.
  rewrite Off in L1. change (timestamp first_voiced_frame) with 0 in L1.
  cbn [sampleRateRef initial_session truthy_opt] in R1.
  change (sample_rate first_voiced_frame) with 16000 in R1.
  cbn [audioBuffer initial_session app] in B1.
  cbn [transcribingRef initial_session] in T1.
  split.
  { apply handle_frame_no_dispatch; fold s1.
    - unfold enoughForChunk, neededSamples. rewrite R1. cbn [truthy_opt]. rewrite T, B1, Hcs, N40.
      apply Rge_b_false. cbn [length INR]. lra.
    - unfold pauseDetected, minUtteranceSamples. rewrite R1, T, B1, Hcs, Hmin, N16.
      replace (Rge_b (INR (length [0.5])) 16000) with false
        by (symmetry; apply Rge_b_false; cbn [length INR]; lra).
      apply andb_false_r. }
  cbv zeta. split; [exact V1 |]. split; [exact L1 |].
  set (s2 := frame_update quiet_frame_449 s1).
  destruct (frame_update_fields quiet_frame_449 s1) as (_ & _ & _ & T2 & B2 & _ & R2).
  destruct (frame_update_vad quiet_frame_449 s1) as [V2 L2].
  cbv zeta in V2, L2. fold s2 in T2, B2, R2, V2, L2.
  change (data quiet_frame_449) with (silence (Z.to_nat 15999)) in V2, L2, B2.
  rewrite level_silence in V2, L2. rewrite V1 in V2, L2. cbn [orb] in V2, L2.
  replace (Rge_b 0 vadOff) with false in L2
    by (symmetry; apply Rge_b_false; unfold vadOff; lra).
  rewrite L1 in L2.
  rewrite R1 in R2. cbn [truthy_opt] in R2. rewrite T in R2.
  rewrite B1 in B2.
  assert (Len : INR (length (audioBuffer s2)) = 16000).
  { rewrite B2. cbn [app length]. rewrite S_INR. unfold silence.
    rewrite repeat_length, INR_IZR_INZ, Z2Nat.id by lia. lra. }
  assert (Gap : silenceGapMs (timestamp quiet_frame_449) s2 = Infinity).
  { unfold silenceGapMs. rewrite L2. cbn [truthy_opt]. rewrite Z0. reflexivity. }
  assert (Min : minUtteranceSamples (effective_chunk_seconds 2.5) (sampleRateRef s2) = 16000).
  { unfold minUtteranceSamples. rewrite R2, T, Hcs, Hmin, N16. reflexivity. }
  assert (P : pauseDetected (effective_chunk_seconds 2.5) (timestamp quiet_frame_449) s2 = true).
  { unfold pauseDetected. rewrite V2, Gap, Min, Len. cbn [gap_ge andb].
    apply Rge_b_spec; lra. }
  assert (E : enoughForChunk (effective_chunk_seconds 2.5) s2 = false).
  { unfold enoughForChunk, neededSamples. rewrite R2. cbn [truthy_opt]. rewrite T, Hcs, N40, Len.
    apply Rge_b_false; lra. }
  split; [exact V2 |]. split; [exact L2 |].
  split; [cbn [timestamp quiet_frame_449]; lra |].
  split; [exact Len |]. split; [exact Min |]. split; [exact Gap |].
  split; [exact P |]. split; [exact E |].
  rewrite (handle_frame_fires 2.5 quiet_frame_449 s1 16000).
  - discriminate.
  - rewrite T1. reflexivity.
  - fold s2. exact R2.
  - exact T.
  - fold s2. rewrite P, orb_true_r. reflexivity.
  - rewrite B1. discriminate.
Qed.

(** ** The run with a frame during a call in flight *)

Lemma busy_run :
  run busy_events (mkWorld initial_session []) = Some (busy_final, [demo_call]).
Proof.
  unfold busy_events.
  rewrite run_cons, (step_frame_eq 1 (full_frame 1000) (mkWorld initial_session []) _ _
                       (full_frame_dispatches 1000 initial_session eq_refl eq_refl
                          (or_introl eq_refl))).
  cbv beta iota delta [inflight sess].
  set (s1 := set_buffer [] (set_transcribing true (frame_update (full_frame 1000) initial_session))).
  rewrite run_cons, (step_frame_eq 1 voiced_frame
                       (mkWorld s1 ([] ++ [mkCall (silence (Z.to_nat 16000)) 16000])) _ _
                       (handle_frame_transcribing 1 voiced_frame s1 eq_refl)).
  cbv beta iota delta [inflight sess].
  rewrite run_cons, (step_settle_eq 0 (Resolved (Some " hi "%string))
    (mkWorld (frame_update voiced_frame s1)
       (([] ++ [mkCall (silence (Z.to_nat 16000)) 16000]) ++ []))) by (cbn; lia).
  cbv beta iota delta [inflight sess]. rewrite run_nil. reflexivity.
Qed.

Lemma busy_before_settle_fields :
  audioBuffer (sess busy_before_settle) = [0.5] /\
  levels (sess busy_before_settle) = [0; 0.5].
Proof.
  cbv beta iota delta [busy_before_settle sess].
  destruct (frame_update_fields voiced_frame
    (set_buffer [] (set_transcribing true (frame_update (full_frame 1000) initial_session))))
    as (_ & _ & _ & _ & Hb & Hl & _).
  rewrite Hb, Hl. split; [reflexivity |].
  cbn [levels set_buffer set_transcribing].
  destruct (frame_update_fields (full_frame 1000) initial_session) as (_ & _ & _ & _ & _ & Hl0 & _).
  rewrite Hl0. unfold full_frame, voiced_frame. cbn [data].
  rewrite level_silence, level_half. reflexivity.
Qed.

(** ** Witnesses *)

(** C3 on a run where the first full frame dispatches, a voiced frame
    arrives while that call is in flight, and the call then resolves: the
    call carries the 16000 samples of the first frame and the buffer keeps
    the sample of the second. *)
Lemma samples_conserved_witness :
  concat (map audio_frames [demo_call]) ++ audioBuffer (sess busy_final) =
    audioBuffer initial_session ++ frame_samples busy_events /\
  (length (concat (map audio_frames [demo_call])) + length (audioBuffer (sess busy_final)) =
   length (audioBuffer initial_session) + length (frame_samples busy_events))%nat.
Proof.
  exact (samples_conserved busy_events (mkWorld initial_session []) busy_final [demo_call]
           eq_refl busy_run).
Defined.

(** C1 (as amended) at a world whose one call in flight is rejected. *)
Lemma at_most_one_call_per_session_witness :
  length (inflight (mkWorld (flush_finish Rejected (set_transcribing true initial_session)) [])) =
    (if transcribingRef (flush_finish Rejected (set_transcribing true initial_session))
     then 1 else 0)%nat /\
  (length (inflight (mkWorld (flush_finish Rejected (set_transcribing true initial_session)) []))
   <= 1)%nat.
Proof.
  exact (proj2 at_most_one_call_per_session [CallSettles 0 Rejected]
           (mkWorld (set_transcribing true initial_session) [mkCall [0.5] 16000])
           (mkWorld (flush_finish Rejected (set_transcribing true initial_session)) []) []
           eq_refl eq_refl eq_refl).
Defined.

(** C6: two calls resolving " hello " and "hello" from a fresh state. *)
Lemma dedup_consecutive_results_witness :
  transcript (flush_finish (Resolved (Some "hello"%string))
                (flush_finish (Resolved (Some " hello "%string)) initial_session)) =
  (if String.eqb (lastSnippet initial_session) "hello" then transcript initial_session
   else append_snippet (transcript initial_session) "hello").
Proof.
  exact (proj2 dedup_consecutive_results 0%nat 0%nat " hello "%string "hello"%string []
           (mkWorld initial_session [mkCall [0.5] 16000; mkCall [0.5] 16000])
           (mkWorld (flush_finish (Resolved (Some "hello"%string))
                       (flush_finish (Resolved (Some " hello "%string)) initial_session)) [])
           [] eq_refl eq_refl eq_refl eq_refl).
Defined.

(** C5 at the mount state and one silent frame at 16 kHz. *)
Lemma duration_trigger_on_silence_witness :
  speakingRef (fst (handle_frame 2 (mkFrame (silence 1) 0 16000) initial_session)) = false /\
  pauseDetected (effective_chunk_seconds 2) 0
    (frame_update (mkFrame (silence 1) 0 16000) initial_session) = false.
Proof.
  destruct (proj1 (proj2 duration_trigger_on_silence) initial_session
              (mkFrame (silence 1) 0 16000) eq_refl (or_introl eq_refl) eq_refl
              (level_silence 1)) as (H1 & H2 & _).
  split; [exact H1 | exact H2].
Defined.

(** C7 at a world with one call in flight that is rejected. *)
Lemma settle_rejected_and_finally_witness :
  @None Call = None /\
  length (inflight (mkWorld (flush_finish Rejected initial_session) [])) =
    pred (length [mkCall [0.5] 16000]).
Proof.
  exact (proj2 (proj2 settle_rejected_and_finally) 0%nat Rejected
           (mkWorld initial_session [mkCall [0.5] 16000])
           (mkWorld (flush_finish Rejected initial_session) []) None eq_refl).
Defined.

(** C10 at the settling of the busy run: the sample and the level of the
    voiced frame that arrived while the call was in flight are kept. *)
Lemma settle_changes_only_dispatch_fields_witness :
  audioBuffer (sess busy_final) = [0.5] /\ levels (sess busy_final) = [0; 0.5].
Proof.
  destruct (proj2 settle_changes_only_dispatch_fields 0%nat (Resolved (Some " hi "%string))
              busy_before_settle busy_final None)
    as (_ & _ & Hb & _ & _ & Hl).
  - rewrite step_settle_eq by (cbn; lia). reflexivity.
  - destruct busy_before_settle_fields as [Hb0 Hl0].
    rewrite Hb, Hl, Hb0, Hl0. split; reflexivity.
Defined.

(** C8 at [v = 3.5], inside the range. *)
Lemma chunk_seconds_clamped_witness : effective_chunk_seconds 3.5 = 3.5.
Proof.
  destruct (proj1 chunk_seconds_clamped 3.5) as (_ & _ & H & _).
  apply H. split; lra.
Defined.

(** C2 at the first full frame of a session. *)
Lemma flush_takes_whole_buffer_witness :
  transcribingRef (set_buffer [] (set_transcribing true
    (frame_update (full_frame 1000) initial_session))) = true /\
  audio_frames (mkCall (silence (Z.to_nat 16000)) 16000) =
    audioBuffer initial_session ++ data (full_frame 1000).
Proof.
  destruct (proj1 flush_takes_whole_buffer 1 (full_frame 1000) initial_session _ _
              (full_frame_dispatches 1000 initial_session eq_refl eq_refl (or_introl eq_refl)))
    as (H1 & _ & H3 & _).
  split; [exact H1 | exact H3].
Defined.

End AudioFacts.

(** * Further properties of the hook and its callers *)

Module AudioExtra.
Import Audio AudioFacts.

(** ** Helpers *)

Lemma run_invariant (ok : Event -> bool) (P : World -> Prop) (Q : Call -> Prop) :
  (forall e w w1 c, ok e = true -> P w -> step e w = Some (w1, c) ->
     P w1 /\ (forall x, c = Some x -> Q x)) ->
  forall es w w' calls, forallb ok es = true -> P w -> run es w = Some (w', calls) ->
  P w' /\ Forall Q calls.
Proof.
  intros Hstep es; induction es as [|e es IH]; intros w w' calls Hok Hp Hr; simpl in Hr.
  - inversion Hr; subst; split; [exact Hp | constructor].
  - simpl in Hok; apply andb_true_iff in Hok as [He Hok].
    destruct (step e w) as [[w1 c]|] eqn:E1; [| discriminate].
    destruct (run es w1) as [[w2 c2]|] eqn:E2; [| discriminate].
    inversion Hr; subst.
    destruct (Hstep e w w1 c He Hp E1) as [Hp1 Hq].
    destruct (IH w1 w' c2 Hok Hp1 E2) as [Hp2 Hq2].
    split; [exact Hp2 |].
    destruct c as [x|]; [constructor; [apply Hq; reflexivity | exact Hq2] | exact Hq2].
Qed.

Lemma forallb_true {A} (l : list A) : forallb (fun _ => true) l = true.
Proof. induction l; simpl; auto. Qed.

Lemma step_reset (w w1 : World) (c : option Call) :
  step Reset w = Some (w1, c) ->
  c = None /\ sess w1 = reset_audio (sess w) /\ inflight w1 = inflight w.
Proof. simpl; intro H; inversion H; subst; repeat split. Qed.

Lemma frame_update_sampleRate (f : AudioFrame) (s : Session) :
  sampleRate (frame_update f s) =
  (if truthy_opt (sampleRateRef s) then sampleRate s else Some (sample_rate f)).
Proof.
  unfold frame_update, latch_rate, vad_update; simpl.
  destruct (truthy_opt (sampleRateRef s)); reflexivity.
Qed.

(** The frame handler's session is the updated one, up to the buffer and
    the guard that a dispatch sets. *)
Lemma handle_frame_other (cs : R) (f : AudioFrame) (s : Session) :
  let s' := fst (handle_frame cs f s) in
  let u := frame_update f s in
  frameCount s' = frameCount u /\ transcript s' = transcript u /\
  levels s' = levels u /\ sampleRate s' = sampleRate u /\
  lastSnippet s' = lastSnippet u /\ speakingRef s' = speakingRef u /\
  lastVoiceMs s' = lastVoiceMs u /\ sampleRateRef s' = sampleRateRef u.
Proof.
  destruct (handle_frame_cases cs f s) as [E | (_ & sr & _ & _ & _ & E)];
    cbv zeta; rewrite E; simpl; repeat split.
Qed.

Lemma level_range (d : list R) : 0 <= level d <= 1.
Proof.
  unfold level, normalize.
  pose proof (sqrt_pos (fold_left (fun acc v => acc + v * v) d 0 / Rmax 1 (INR (length d)))) as Hp.
  fold (rms d) in Hp.
  destruct (Rgt_b (rms d) 1); apply Rmin_nonneg_le1; [| exact Hp].
  unfold Rdiv; apply Rmult_le_pos; [exact Hp |].
  left; apply Rinv_0_lt_compat. pose proof (Rmax_l 1 (INR (length d))); lra.
Qed.

Lemma level_nil : level [] = 0.
Proof.
  unfold level, normalize, rms; simpl. unfold Rdiv; rewrite Rmult_0_l, sqrt_0.
  unfold Rgt_b, Rmin; rdec; lra.
Qed.

Lemma push_level_split (prev : list R) (n : R) :
  length (push_level prev n) = Nat.min 60 (S (length prev)) /\
  exists dropped, prev ++ [n] = dropped ++ push_level prev n.
Proof.
  unfold push_level. rewrite length_app; cbn [length].
  destruct (60 <? length prev + 1)%nat eqn:E.
  - apply Nat.ltb_lt in E. split.
    + rewrite length_skipn, length_app; cbn [length]. lia.
    + exists (firstn (length (prev ++ [n]) - 60) (prev ++ [n])).
      rewrite length_app; cbn [length]. symmetry; apply firstn_skipn.
  - apply Nat.ltb_ge in E. split.
    + rewrite length_app; cbn [length]. lia.
    + exists []; reflexivity.
Qed.

Lemma string_append_nil_r (a : string) : (a ++ "")%string = a.
Proof. induction a as [|c a IH]; simpl; [reflexivity | rewrite IH; reflexivity]. Qed.

Lemma string_append_assoc (a b c : string) : (a ++ (b ++ c))%string = ((a ++ b) ++ c)%string.
Proof. induction a as [|x a IH]; simpl; [reflexivity | rewrite IH; reflexivity]. Qed.

(** [String.append] on the underlying lists of characters. *)
Lemma list_ascii_append (a b : string) :
  list_ascii_of_string (a ++ b) = list_ascii_of_string a ++ list_ascii_of_string b.
Proof. induction a as [|c a IH]; simpl; [reflexivity | rewrite IH; reflexivity]. Qed.

Lemma drop_ws_head (l : list ascii) :
  forall c r, drop_ws l = c :: r -> is_ws c = false.
Proof.
  induction l as [|x l IH]; simpl; intros c r H; [discriminate |].
  destruct (is_ws x) eqn:E; [exact (IH c r H) |].
  inversion H; subst; exact E.
Qed.

Lemma drop_ws_suffix (l : list ascii) : exists p, l = p ++ drop_ws l.
Proof.
  induction l as [|x l [p IH]]; simpl; [exists []; reflexivity |].
  destruct (is_ws x); [exists (x :: p); rewrite IH at 1; reflexivity | exists []; reflexivity].
Qed.

Lemma drop_ws_noop (l : list ascii) :
  (forall c r, l = c :: r -> is_ws c = false) -> drop_ws l = l.
Proof.
  destruct l as [|c r]; intro H; [reflexivity |]. simpl. rewrite (H c r eq_refl). reflexivity.
Qed.

Lemma trim_list_clean (l : list ascii) : clean (trim_list l).
Proof.
  unfold trim_list. split.
  - intros c r H.
    destruct (drop_ws_suffix (rev (drop_ws l))) as [q Hq].
    apply (f_equal (@rev ascii)) in Hq. rewrite rev_involutive, rev_app_distr, H in Hq.
    apply (drop_ws_head l c (r ++ rev q)). rewrite Hq. reflexivity.
  - intros p c H.
    apply (f_equal (@rev ascii)) in H. rewrite rev_involutive, rev_app_distr in H.
    exact (drop_ws_head _ c (rev p) H).
Qed.

Lemma trim_list_noop (l : list ascii) : clean l -> trim_list l = l.
Proof.
  intros [H1 H2]. unfold trim_list. rewrite (drop_ws_noop l H1).
  destruct (rev l) as [|c r] eqn:E.
  - simpl. rewrite <- (rev_involutive l), E. reflexivity.
  - rewrite drop_ws_noop; [rewrite <- E; apply rev_involutive |].
    intros c' r' H. injection H as <- <-.
    apply (H2 (rev r)). rewrite <- (rev_involutive l), E. reflexivity.
Qed.

Lemma trim_as_list (s : string) :
  list_ascii_of_string (trim s) = trim_list (list_ascii_of_string s).
Proof. unfold trim, trim_list. apply list_ascii_of_string_of_list_ascii. Qed.

Lemma trim_fixed (s : string) : clean (list_ascii_of_string s) -> trim s = s.
Proof.
  intro H. unfold trim. fold (trim_list (list_ascii_of_string s)).
  rewrite trim_list_noop by exact H. apply string_of_list_ascii_of_string.
Qed.

Lemma trim_clean (s : string) : clean (list_ascii_of_string (trim s)).
Proof. rewrite trim_as_list. apply trim_list_clean. Qed.

Lemma clean_of_trimmed (s : string) : trim s = s -> clean (list_ascii_of_string s).
Proof. intro H. rewrite <- H. apply trim_clean. Qed.

Lemma clean_join (a b : list ascii) (sp : ascii) :
  a <> [] -> b <> [] -> clean a -> clean b -> clean (a ++ sp :: b).
Proof.
  intros Ha Hb [A1 A2] [B1 B2]. split.
  - intros c r H. destruct a as [|x a]; [contradiction |].
    injection H as <- _. exact (A1 x a eq_refl).
  - intros p c H. destruct (exists_last Hb) as (b' & y & Hy). subst b.
    rewrite app_comm_cons, app_assoc in H. apply app_inj_tail in H as [_ <-].
    exact (B2 b' y eq_refl).
Qed.

(** Appending a clean, non-empty snippet keeps a clean transcript clean. *)
Lemma append_snippet_trimmed (prev c : string) :
  trim prev = prev -> trim c = c -> c <> ""%string ->
  trim (append_snippet prev c) = append_snippet prev c.
Proof.
  intros Hp Hc Hne. unfold append_snippet.
  destruct (String.eqb prev "") eqn:E.
  - apply String.eqb_eq in E; subst prev. simpl. exact Hc.
  - apply String.eqb_neq in E. apply trim_fixed.
    rewrite list_ascii_append. cbn [list_ascii_of_string append].
    apply clean_join; try (apply clean_of_trimmed; assumption).
    + destruct prev; [contradiction | discriminate].
    + destruct c; [contradiction | discriminate].
Qed.

Lemma flush_finish_trimmed (o : outcome) (s : Session) :
  trim (transcript s) = transcript s ->
  trim (transcript (flush_finish o s)) = transcript (flush_finish o s).
Proof.
  intro H. destruct (flush_finish_shape o s) as (t & snip & E & [[Ht _] | (r & _ & Hne & _ & Ht & _)]);
    rewrite E; cbn [transcript]; rewrite Ht; [exact H |].
  apply append_snippet_trimmed; [exact H | | exact Hne].
  apply trim_fixed, trim_clean.
Qed.

Lemma demo_run (s : Session) :
  transcribingRef s = false -> audioBuffer s = [] ->
  (sampleRateRef s = None \/ sampleRateRef s = Some 16000) ->
  run demo_events (mkWorld s []) = Some (demo_final s, [demo_call]).
Proof.
  intros Ht Hb Hr. unfold demo_events.
  rewrite run_cons, (step_frame_eq 1 (full_frame 1000) (mkWorld s []) _ _
                       (full_frame_dispatches 1000 s Ht Hb Hr)).
  cbv beta iota delta [inflight sess].
  rewrite run_cons.
  set (s1 := set_buffer [] (set_transcribing true (frame_update (full_frame 1000) s))).
  rewrite (step_settle_eq 0 (Resolved (Some " hi "%string))
             (mkWorld s1 ([] ++ [mkCall (silence (Z.to_nat 16000)) 16000]))) by (cbn; lia).
  cbv beta iota delta [inflight sess]. rewrite run_nil. reflexivity.
Qed.

(** ** The level window and the waveform *)

(** X1: one frame's level is appended to the window, and the oldest
    levels are dropped so that the window keeps the last
    [min(60, n + 1)] entries of the previous window followed by the new
    level. *)
Theorem push_level_keeps_last_60 (prev : list R) (n : R) :
  length (push_level prev n) = Nat.min 60 (S (length prev)) /\
  (exists dropped, prev ++ [n] = dropped ++ push_level prev n) /\
  ((length prev < 60)%nat -> push_level prev n = prev ++ [n]).
Proof.
  destruct (push_level_split prev n) as [Hl Hd]. split; [exact Hl |]. split; [exact Hd |].
  intro H. unfold push_level. rewrite length_app; cbn [length].
  replace (60 <? length prev + 1)%nat with false by (symmetry; apply Nat.ltb_ge; lia).
  reflexivity.
Qed.

Definition window_ok (w : World) : Prop :=
  (length (levels (sess w)) <= 60)%nat /\ Forall (fun x => 0 <= x <= 1) (levels (sess w)).

Lemma window_ok_step (e : Event) (w w1 : World) (c : option Call) :
  window_ok w -> step e w = Some (w1, c) -> window_ok w1.
Proof.
  unfold window_ok; intros [Hl Hr] Hs. destruct e as [cs f | i o |].
  - apply step_frame in Hs as (Hs1 & _ & _). rewrite Hs1.
    destruct (handle_frame_other cs f (sess w)) as (_ & _ & Hlv & _).
    destruct (frame_update_fields f (sess w)) as (_ & _ & _ & _ & _ & Hp & _).
    rewrite Hlv, Hp.
    destruct (push_level_split (levels (sess w)) (level (data f))) as [Hn [dropped Hd]].
    split; [rewrite Hn; lia |].
    assert (Hall : Forall (fun x => 0 <= x <= 1) (levels (sess w) ++ [level (data f)])).
    { apply Forall_app; split; [exact Hr | constructor; [apply level_range | constructor]]. }
    rewrite Hd in Hall. apply Forall_app in Hall as [_ Hall]. exact Hall.
  - apply step_settle in Hs as (_ & _ & Hs1 & _). rewrite Hs1.
    destruct (flush_finish_shape o (sess w)) as (t & snip & E & _). rewrite E.
    split; assumption.
  - apply step_reset in Hs as (_ & Hs1 & _). rewrite Hs1. simpl. split; [lia | constructor].
Qed.

Lemma bar_height_range (lv : R) : 0 <= lv <= 1 -> 2 <= bar_height 36 lv <= 30.
Proof.
  intro H. unfold bar_height. pose proof (floor_spec (lv * (36 - 6))).
  unfold Rmax; destruct (Rle_dec 2 (floor (lv * (36 - 6)))); nra.
Qed.

(** X2: along any run of events (frames, settling calls, resets) from a
    state whose level window has at most 60 entries, all in [0, 1] (the
    mount state has none), the window keeps at most 60 entries, all in
    [0, 1]; so the [Waveform] of App.tsx draws every level of the window,
    and at its default height of 36 every bar is between 2 and 30 pixels
    high. *)
Theorem level_window_bounded (es : list Event) (w w' : World) (calls : list Call) :
  (length (levels (sess w)) <= 60)%nat ->
  Forall (fun x => 0 <= x <= 1) (levels (sess w)) ->
  run es w = Some (w', calls) ->
  (length (levels (sess w')) <= 60)%nat /\
  Forall (fun x => 0 <= x <= 1) (levels (sess w')) /\
  waveform_bars 36 (levels (sess w')) = map (bar_height 36) (levels (sess w')) /\
  Forall (fun h => 2 <= h <= 30) (waveform_bars 36 (levels (sess w'))).
Proof.
  intros Hl Hr Hrun.
  destruct (run_invariant (fun _ => true) window_ok (fun _ => True)
              (fun e w0 w1 c _ Hp Hs => conj (window_ok_step e w0 w1 c Hp Hs) (fun _ _ => I))
              es w w' calls (forallb_true es) (conj Hl Hr) Hrun) as [[Hl' Hr'] _].
  assert (Hb : waveform_bars 36 (levels (sess w')) = map (bar_height 36) (levels (sess w'))).
  { unfold waveform_bars, slice_last.
    replace (length (levels (sess w')) - 60)%nat with 0%nat by lia. reflexivity. }
  split; [exact Hl' |]. split; [exact Hr' |]. split; [exact Hb |].
  rewrite Hb. apply Forall_map. eapply Forall_impl; [| exact Hr'].
  intros x Hx. apply bar_height_range, Hx.
Qed.

(** ** The latched sample rate *)

Definition rates_agree (w : World) : Prop := sampleRate (sess w) = sampleRateRef (sess w).

Lemma rates_agree_step (e : Event) (w w1 : World) (c : option Call) :
  rates_agree w -> step e w = Some (w1, c) -> rates_agree w1.
Proof.
  unfold rates_agree; intros H Hs. destruct e as [cs f | i o |].
  - apply step_frame in Hs as (Hs1 & _ & _). rewrite Hs1.
    destruct (handle_frame_other cs f (sess w)) as (_ & _ & _ & Hsr & _ & _ & _ & Href).
    destruct (frame_update_fields f (sess w)) as (_ & _ & _ & _ & _ & _ & Hr).
    rewrite Hsr, Href, frame_update_sampleRate, Hr.
    destruct (truthy_opt (sampleRateRef (sess w))); [exact H | reflexivity].
  - apply step_settle in Hs as (_ & _ & Hs1 & _). rewrite Hs1.
    destruct (flush_finish_shape o (sess w)) as (t & snip & E & _). rewrite E. exact H.
  - apply step_reset in Hs as (_ & Hs1 & _). rewrite Hs1. reflexivity.
Qed.

(** X3: the [sampleRate] state the hook returns always equals
    [sampleRateRef]: this holds on mount and along any run of events,
    resets included. *)
Theorem sample_rate_state_matches_ref (es : list Event) (w w' : World) (calls : list Call) :
  sampleRate (sess w) = sampleRateRef (sess w) ->
  run es w = Some (w', calls) ->
  sampleRate (sess w') = sampleRateRef (sess w').
Proof.
  intros H Hrun.
  exact (proj1 (run_invariant (fun _ => true) rates_agree (fun _ => True)
    (fun e w0 w1 c _ Hp Hs => conj (rates_agree_step e w0 w1 c Hp Hs) (fun _ _ => I))
    es w w' calls (forallb_true es) H Hrun)).
Qed.

(** X4: once a non-zero sample rate [sr] is latched, it stays latched for
    the rest of the recording session (frames and settling calls), even
    when later frames report another rate, and every call dispatched in
    that session is sent with [sr]. *)
Theorem latched_rate_kept (sr : R) (es : list Event) (w w' : World) (calls : list Call) :
  sr <> 0 ->
  sampleRateRef (sess w) = Some sr ->
  forallb session_event es = true ->
  run es w = Some (w', calls) ->
  sampleRateRef (sess w') = Some sr /\ Forall (fun c => call_rate c = sr) calls.
Proof.
  intros Hnz H0 Hses Hrun.
  assert (T : truthy sr = true) by (apply truthy_spec; exact Hnz).
  refine (run_invariant session_event (fun w0 => sampleRateRef (sess w0) = Some sr)
            (fun c => call_rate c = sr) _ es w w' calls Hses H0 Hrun).
  intros e w0 w1 c He Hp Hs. destruct e as [cs f | i o |]; [| | discriminate].
  - apply step_frame in Hs as (Hs1 & Hc & _).
    destruct (frame_update_fields f (sess w0)) as (_ & _ & _ & _ & _ & _ & Hr).
    rewrite Hp in Hr. cbn [truthy_opt] in Hr. rewrite T in Hr.
    split.
    + rewrite Hs1, handle_frame_rate, Hr. reflexivity.
    + intros x Hx. subst c.
      destruct (handle_frame_cases cs f (sess w0)) as [E | (_ & sr' & Hsr' & _ & _ & E)];
        rewrite E in Hx; cbn [snd] in Hx; [discriminate |].
      injection Hx as <-. rewrite Hr in Hsr'. injection Hsr' as ->. reflexivity.
  - apply step_settle in Hs as (Hc & _ & Hs1 & _). subst c. split; [| discriminate].
    rewrite Hs1. destruct (flush_finish_shape o (sess w0)) as (t & snip & E & _).
    rewrite E. exact Hp.
Qed.

(** X5: while no rate is latched, or the latched rate is 0 (falsy in
    JavaScript), the next frame latches its own rate into both
    [sampleRateRef] and the [sampleRate] state; a frame reporting rate 0
    then dispatches nothing, whatever its samples. *)
Theorem falsy_rate_relatched (cs : R) (f : AudioFrame) (s : Session) :
  sampleRateRef s = None \/ sampleRateRef s = Some 0 ->
  sampleRateRef (fst (handle_frame cs f s)) = Some (sample_rate f) /\
  sampleRate (fst (handle_frame cs f s)) = Some (sample_rate f) /\
  (sample_rate f = 0 -> snd (handle_frame cs f s) = None).
Proof.
  intro H.
  assert (F : truthy_opt (sampleRateRef s) = false).
  { destruct H as [H | H]; rewrite H; [reflexivity |]. cbn [truthy_opt].
    apply truthy_false; reflexivity. }
  destruct (frame_update_fields f s) as (_ & _ & _ & _ & _ & _ & Hr).
  rewrite F in Hr.
  destruct (handle_frame_other cs f s) as (_ & _ & _ & Hsr & _ & _ & _ & Href).
  split; [rewrite Href; exact Hr |].
  split; [rewrite Hsr, frame_update_sampleRate, F; reflexivity |].
  intro Hz.
  destruct (handle_frame_cases cs f s) as [E | (_ & sr & Hsr' & Ht & _ & E)];
    rewrite E; [reflexivity |].
  rewrite Hr in Hsr'. injection Hsr' as <-. rewrite Hz in Ht.
  apply truthy_spec in Ht. contradiction.
Qed.

(** X6: a frame with no samples, handled while the buffer is empty (on
    mount, after a reset or right after a dispatch), dispatches nothing:
    the buffer stays empty, the frame is still counted, and level 0 is
    appended to the level window. *)
Theorem empty_frame_no_dispatch (cs : R) (f : AudioFrame) (s : Session) :
  audioBuffer s = [] -> data f = [] ->
  snd (handle_frame cs f s) = None /\
  audioBuffer (fst (handle_frame cs f s)) = [] /\
  frameCount (fst (handle_frame cs f s)) = S (frameCount s) /\
  last (levels (fst (handle_frame cs f s))) 0 = 0.
Proof.
  intros Hb Hd.
  destruct (frame_update_fields f s) as (Hc & _ & _ & _ & Hb5 & Hl & _).
  destruct (handle_frame_other cs f s) as (Hc' & _ & Hl' & _).
  destruct (handle_frame_cases cs f s) as [E | (_ & sr & _ & _ & Hne & _)].
  - rewrite E. cbn [fst snd]. rewrite Hb5, Hb, Hd. split; [reflexivity |].
    split; [reflexivity |]. split; [exact Hc |].
    rewrite Hl, Hd, level_nil. apply push_level_last.
  - rewrite Hb, Hd in Hne. contradiction.
Qed.

(** ** Frame counter *)

Lemma frame_count_session (es : list Event) (w w' : World) (calls : list Call) :
  forallb session_event es = true -> run es w = Some (w', calls) ->
  frameCount (sess w') = (frameCount (sess w) + length (filter is_frame es))%nat.
Proof.
  revert w calls; induction es as [|e es IH]; intros w calls Hses Hr; simpl in Hr.
  - inversion Hr; subst; simpl; lia.
  - simpl in Hses; apply andb_true_iff in Hses as [He Hses].
    destruct (step e w) as [[w1 c]|] eqn:E1; [| discriminate].
    destruct (run es w1) as [[w2 c2]|] eqn:E2; [| discriminate].
    inversion Hr; subst. rewrite (IH w1 c2 Hses E2).
    destruct e as [cs f | i o |]; [| | discriminate].
    + apply step_frame in E1 as (Hs1 & _ & _). rewrite Hs1.
      destruct (handle_frame_other cs f (sess w)) as (Hc & _).
      destruct (frame_update_fields f (sess w)) as (Hc5 & _).
      rewrite Hc, Hc5. simpl. lia.
    + apply step_settle in E1 as (_ & _ & Hs1 & _). rewrite Hs1.
      destruct (flush_finish_shape o (sess w)) as (t & snip & E & _). rewrite E. simpl. lia.
Qed.

(** X7: [frameCount] counts the frames handled since the last reset: after
    any run that ends with a reset followed by frames and settling calls
    only, it equals the number of those frames. *)
Theorem frame_count_since_reset (es1 es2 : list Event) (w w' : World) (calls : list Call) :
  forallb session_event es2 = true ->
  run (es1 ++ Reset :: es2) w = Some (w', calls) ->
  frameCount (sess w') = length (filter is_frame es2).
Proof.
  intros Hses Hr. rewrite run_app in Hr.
  destruct (run es1 w) as [[w1 c1]|]; [| discriminate].
  rewrite run_cons, step_reset_eq in Hr.
  destruct (run es2 (mkWorld (reset_audio (sess w1)) (inflight w1))) as [[w2 c2]|] eqn:E;
    [| discriminate].
  injection Hr as <- _. rewrite (frame_count_session es2 _ w2 c2 Hses E). reflexivity.
Qed.

(** ** Reset and calls still in flight *)

(** X8: a reset does not cancel the calls in flight nor clear
    [lastSnippetRef].  A call of the previous session that resolves with
    [x] after the reset is removed from the calls in flight, and the new
    session's transcript becomes [trim x], unless [trim x] is empty or
    equals the last snippet accepted before the reset, in which case the
    transcript stays empty. *)
Theorem late_result_after_reset (w : World) (i : nat) (x : string) :
  (i < length (inflight w))%nat ->
  exists w',
    run [Reset; CallSettles i (Resolved (Some x))] w = Some (w', []) /\
    inflight w' = remove_nth i (inflight w) /\
    transcript (sess w') =
      (if String.eqb (trim x) "" || String.eqb (trim x) (lastSnippet (sess w))
       then ""%string else trim x) /\
    lastSnippet (sess w') =
      (if String.eqb (trim x) "" || String.eqb (trim x) (lastSnippet (sess w))
       then lastSnippet (sess w) else trim x).
Proof.
  intro H.
  exists (mkWorld (flush_finish (Resolved (Some x)) (reset_audio (sess w)))
                  (remove_nth i (inflight w))).
  split.
  - rewrite run_cons, step_reset_eq, run_cons, step_settle_eq by exact H.
    reflexivity.
  - split; [reflexivity |].
    destruct (finish_resolved_text (Some x) (reset_audio (sess w))) as [Ht Hl].
    cbv zeta in Ht, Hl. cbn [sess]. rewrite Ht, Hl. cbn [lastSnippet reset_audio transcript].
    destruct (String.eqb (trim x) "") eqn:E1; destruct (String.eqb (trim x) (lastSnippet (sess w)));
      cbn [negb andb orb]; split; reflexivity.
Qed.

(** ** Trimming and the saved transcript *)

(** X9: the [trim] applied to a transcription result removes all white
    space at both ends, and trimming again changes nothing. *)
Theorem trim_idempotent (s : string) :
  trim (trim s) = trim s /\
  (forall c r, list_ascii_of_string (trim s) = c :: r -> is_ws c = false) /\
  (forall p c, list_ascii_of_string (trim s) = p ++ [c] -> is_ws c = false).
Proof.
  destruct (trim_clean s) as [H1 H2].
  split; [apply trim_fixed, trim_clean |]. split; assumption.
Qed.

Lemma transcript_trimmed_step (e : Event) (w w1 : World) (c : option Call) :
  trim (transcript (sess w)) = transcript (sess w) -> step e w = Some (w1, c) ->
  trim (transcript (sess w1)) = transcript (sess w1).
Proof.
  intros H Hs. destruct e as [cs f | i o |].
  - apply step_frame in Hs as (Hs1 & _ & _). rewrite Hs1.
    rewrite (proj1 (handle_frame_text cs f (sess w))). exact H.
  - apply step_settle in Hs as (_ & _ & Hs1 & _). rewrite Hs1.
    apply flush_finish_trimmed, H.
  - apply step_reset in Hs as (_ & Hs1 & _). rewrite Hs1. reflexivity.
Qed.

(** X10: along any run from a state whose transcript has no white space
    at either end (the mount state has the empty one), the transcript
    keeps none, so the [transcript.trim()] that [handleStopRecording]
    saves is the hook's transcript itself, and nothing is saved exactly
    when the transcript is empty. *)
Theorem saved_transcript_is_transcript (es : list Event) (w w' : World) (calls : list Call) :
  trim (transcript (sess w)) = transcript (sess w) ->
  run es w = Some (w', calls) ->
  trim (transcript (sess w')) = transcript (sess w') /\
  saved_transcript (transcript (sess w')) =
    (if String.eqb (transcript (sess w')) "" then None else Some (transcript (sess w'))).
Proof.
  intros H Hrun.
  destruct (run_invariant (fun _ => true)
              (fun w0 => trim (transcript (sess w0)) = transcript (sess w0)) (fun _ => True)
              (fun e w0 w1 c _ Hp Hs => conj (transcript_trimmed_step e w0 w1 c Hp Hs)
                                             (fun _ _ => I))
              es w w' calls (forallb_true es) H Hrun) as [Ht _].
  split; [exact Ht |]. unfold saved_transcript. rewrite Ht. reflexivity.
Qed.

(** X11: within a recording session (frames and settling calls) the
    transcript only grows: the transcript before is a prefix of the
    transcript after. *)
Theorem transcript_only_grows (es : list Event) (w w' : World) (calls : list Call) :
  forallb session_event es = true ->
  run es w = Some (w', calls) ->
  exists suffix, transcript (sess w') = (transcript (sess w) ++ suffix)%string.
Proof.
  revert w calls; induction es as [|e es IH]; intros w calls Hses Hr; simpl in Hr.
  - inversion Hr; subst. exists ""%string. symmetry; apply string_append_nil_r.
  - simpl in Hses; apply andb_true_iff in Hses as [He Hses].
    destruct (step e w) as [[w1 c]|] eqn:E1; [| discriminate].
    destruct (run es w1) as [[w2 c2]|] eqn:E2; [| discriminate].
    inversion Hr; subst. destruct (IH w1 c2 Hses E2) as [suf Hsuf]. rewrite Hsuf.
    destruct e as [cs f | i o |]; [| | discriminate].
    + apply step_frame in E1 as (Hs1 & _ & _). rewrite Hs1.
      rewrite (proj1 (handle_frame_text cs f (sess w))). exists suf; reflexivity.
    + apply step_settle in E1 as (_ & _ & Hs1 & _). rewrite Hs1.
      destruct (flush_finish_shape o (sess w)) as
        (t & snip & E & [[Ht _] | (r & _ & _ & _ & Ht & _)]); rewrite E; cbn [transcript];
        rewrite Ht; [exists suf; reflexivity |].
      unfold append_snippet.
      eexists. rewrite <- !string_append_assoc. reflexivity.
Qed.

(** ** Calls *)

(** X12: no call is ever dispatched with an empty chunk or with a sample
    rate of 0: along any run, every call sent to [transcribe_audio] carries
    at least one sample and a non-zero rate. *)
Theorem dispatched_calls_nonempty (es : list Event) (w w' : World) (calls : list Call) :
  run es w = Some (w', calls) ->
  Forall (fun c => audio_frames c <> [] /\ call_rate c <> 0) calls.
Proof.
  intro Hrun.
  refine (proj2 (run_invariant (fun _ => true) (fun _ => True)
            (fun c => audio_frames c <> [] /\ call_rate c <> 0) _ es w w' calls
            (forallb_true es) I Hrun)).
  intros e w0 w1 c _ _ Hs. split; [exact I |]. intros x Hx. subst c.
  destruct e as [cs f | i o |].
  - apply step_frame in Hs as (_ & Hc & _).
    destruct (handle_frame_cases cs f (sess w0)) as [E | (_ & sr & _ & Ht & Hne & E)];
      rewrite E in Hc; cbn [snd] in Hc; [discriminate |].
    injection Hc as ->. split; [exact Hne |]. apply truthy_spec; exact Ht.
  - apply step_settle in Hs as (Hc & _). discriminate.
  - apply step_reset in Hs as (Hc & _). discriminate.
Qed.

(** ** Voice activity *)

Lemma handle_frame_vad (cs : R) (f : AudioFrame) (s : Session) :
  let n := level (data f) in
  let sp := speakingRef s || Rge_b n vadOn in
  speakingRef (fst (handle_frame cs f s)) = sp /\
  lastVoiceMs (fst (handle_frame cs f s)) =
    (if sp then
       if Rge_b n vadOff then Some (timestamp f)
       else match lastVoiceMs s with None => Some (timestamp f) | Some x => Some x end
     else lastVoiceMs s).
Proof.
  destruct (handle_frame_other cs f s) as (_ & _ & _ & _ & _ & Hsp & Hlv & _).
  rewrite Hsp, Hlv. apply frame_update_vad.
Qed.

Definition voice_ok (w : World) : Prop :=
  speakingRef (sess w) = true -> lastVoiceMs (sess w) <> None.

Lemma voice_ok_step (e : Event) (w w1 : World) (c : option Call) :
  voice_ok w -> step e w = Some (w1, c) -> voice_ok w1.
Proof.
  unfold voice_ok; intros H Hs. destruct e as [cs f | i o |].
  - apply step_frame in Hs as (Hs1 & _ & _). rewrite Hs1.
    destruct (handle_frame_vad cs f (sess w)) as [Hsp Hlv]. rewrite Hsp, Hlv.
    intro Hsp'. rewrite Hsp'.
    destruct (Rge_b (level (data f)) vadOff); [discriminate |].
    destruct (lastVoiceMs (sess w)); discriminate.
  - apply step_settle in Hs as (_ & _ & Hs1 & _). rewrite Hs1.
    destruct (flush_finish_shape o (sess w)) as (t & snip & E & _). rewrite E.
    cbn [speakingRef]. discriminate.
  - apply step_reset in Hs as (_ & Hs1 & _). rewrite Hs1. cbn. discriminate.
Qed.

Lemma frames_keep_speaking (es : list Event) (w w' : World) (calls : list Call) :
  forallb is_frame es = true -> speakingRef (sess w) = true ->
  run es w = Some (w', calls) -> speakingRef (sess w') = true.
Proof.
  intros Hf H Hrun.
  refine (proj1 (run_invariant is_frame (fun w0 => speakingRef (sess w0) = true)
            (fun _ => True) _ es w w' calls Hf H Hrun)).
  intros e w0 w1 c He Hp Hs. split; [| intros; exact I].
  destruct e as [cs f | |]; try discriminate.
  apply step_frame in Hs as (Hs1 & _ & _). rewrite Hs1.
  rewrite (proj1 (handle_frame_vad cs f (sess w0))), Hp. reflexivity.
Qed.

(** X13: [speakingRef] is never set without [lastVoiceMsRef]: this holds
    on mount and along any run of events.  Frames never clear
    [speakingRef]: once set, only a settling call or a reset clears it. *)
Theorem speaking_has_last_voice (es : list Event) (w w' : World) (calls : list Call) :
  (speakingRef (sess w) = true -> lastVoiceMs (sess w) <> None) ->
  run es w = Some (w', calls) ->
  (speakingRef (sess w') = true -> lastVoiceMs (sess w') <> None) /\
  (forallb is_frame es = true -> speakingRef (sess w) = true -> speakingRef (sess w') = true).
Proof.
  intros H Hrun. split.
  - exact (proj1 (run_invariant (fun _ => true) voice_ok (fun _ => True)
      (fun e w0 w1 c _ Hp Hs => conj (voice_ok_step e w0 w1 c Hp Hs) (fun _ _ => I))
      es w w' calls (forallb_true es) H Hrun)).
  - intros Hf Hsp. exact (frames_keep_speaking es w w' calls Hf Hsp Hrun).
Qed.

(** X14: the hysteresis band: a frame whose level [n] lies in
    [0.02 <= n < 0.03] does not start speech, but while speech is on it
    moves [lastVoiceMsRef] to the frame's timestamp; a frame with level at
    least 0.03 always sets [speakingRef] and [lastVoiceMsRef = timestamp];
    a frame below 0.02 while speech is on keeps a set [lastVoiceMsRef]. *)
Theorem vad_hysteresis (cs : R) (f : AudioFrame) (s : Session) :
  let n := level (data f) in
  let s' := fst (handle_frame cs f s) in
  (vadOff <= n < vadOn ->
     speakingRef s' = speakingRef s /\
     lastVoiceMs s' = (if speakingRef s then Some (timestamp f) else lastVoiceMs s)) /\
  (vadOn <= n -> speakingRef s' = true /\ lastVoiceMs s' = Some (timestamp f)) /\
  (n < vadOff -> speakingRef s = true -> forall t, lastVoiceMs s = Some t ->
     speakingRef s' = true /\ lastVoiceMs s' = Some t).
Proof.
  cbv zeta. destruct (handle_frame_vad cs f s) as [Hsp Hlv]. cbv zeta in Hsp, Hlv.
  rewrite Hsp, Hlv. unfold vadOn, vadOff. split; [| split].
  - intros [H1 H2].
    replace (Rge_b (level (data f)) 0.03) with false by (symmetry; apply Rge_b_false; lra).
    replace (Rge_b (level (data f)) 0.02) with true by (symmetry; apply Rge_b_spec; lra).
    rewrite orb_false_r. split; [reflexivity |]. destruct (speakingRef s); reflexivity.
  - intro H1.
    replace (Rge_b (level (data f)) 0.03) with true by (symmetry; apply Rge_b_spec; lra).
    replace (Rge_b (level (data f)) 0.02) with true by (symmetry; apply Rge_b_spec; lra).
    rewrite orb_true_r. split; reflexivity.
  - intros H1 H2 t Ht.
    replace (Rge_b (level (data f)) 0.02) with false by (symmetry; apply Rge_b_false; lra).
    rewrite H2, Ht. split; reflexivity.
Qed.

Lemma other_rate_frame_dispatches (t : R) :
  handle_frame 1 (other_rate_frame t) latched_session =
  (set_buffer [] (set_transcribing true (frame_update (other_rate_frame t) latched_session)),
   Some demo_call).
Proof.
  assert (T : truthy 16000 = true) by (apply truthy_spec; lra).
  assert (Hsr : sampleRateRef (frame_update (other_rate_frame t) latched_session) = Some 16000).
  { destruct (frame_update_fields (other_rate_frame t) latched_session)
      as (_ & _ & _ & _ & _ & _ & E).
    rewrite E. cbn [latched_session sampleRateRef truthy_opt]. rewrite T. reflexivity. }
  destruct (frame_update_fields (other_rate_frame t) latched_session) as (_ & _ & _ & _ & Hb5 & _).
  cbn [latched_session audioBuffer] in Hb5. rewrite app_nil_l in Hb5.
  change (data (other_rate_frame t)) with (silence (Z.to_nat 16000)) in Hb5.
  rewrite (handle_frame_dispatch 1 (other_rate_frame t) latched_session 16000 eq_refl Hsr T).
  - reflexivity.
  - unfold enoughForChunk, neededSamples. rewrite Hsr. cbn [truthy_opt]. rewrite T.
    rewrite Hb5. unfold silence. rewrite repeat_length, INR_IZR_INZ, Z2Nat.id by lia.
    destruct (effective_chunk_seconds_cases 1) as [(_ & E) | [(_ & E) | (? & E)]]; try lra;
      rewrite E, Rmult_1_r, floor_IZR; apply Rge_b_spec; lra.
  - cbn [latched_session audioBuffer]. rewrite app_nil_l. unfold other_rate_frame, silence.
    cbn [data]. intro H. apply (f_equal (@length R)) in H. rewrite repeat_length in H.
    cbn [length] in H. lia.
Qed.

(** ** Witnesses *)

(** X2 on the demo run from the mount state. *)
Lemma level_window_bounded_witness :
  (length (levels (sess (demo_final initial_session))) <= 60)%nat /\
  Forall (fun x => 0 <= x <= 1) (levels (sess (demo_final initial_session))) /\
  waveform_bars 36 (levels (sess (demo_final initial_session))) =
    map (bar_height 36) (levels (sess (demo_final initial_session))) /\
  Forall (fun h => 2 <= h <= 30) (waveform_bars 36 (levels (sess (demo_final initial_session)))).
Proof.
  apply (level_window_bounded demo_events (mkWorld initial_session [])
           (demo_final initial_session) [demo_call]).
  - simpl; lia.
  - constructor.
  - apply demo_run; [reflexivity | reflexivity | left; reflexivity].
Defined.

(** X3 on the demo run from the mount state. *)
Lemma sample_rate_state_matches_ref_witness :
  sampleRate (sess (demo_final initial_session)) =
  sampleRateRef (sess (demo_final initial_session)).
Proof.
  apply (sample_rate_state_matches_ref demo_events (mkWorld initial_session [])
           (demo_final initial_session) [demo_call]).
  - reflexivity.
  - apply demo_run; [reflexivity | reflexivity | left; reflexivity].
Defined.

(** X4 from a session with 16 kHz latched, on a frame that reports
    44.1 kHz and dispatches: the rate stays 16 kHz and the call is sent at
    16 kHz. *)
Lemma latched_rate_kept_witness :
  sample_rate (other_rate_frame 1000) <> 16000 /\
  sampleRateRef (sess (mkWorld (set_buffer [] (set_transcribing true
    (frame_update (other_rate_frame 1000) latched_session))) [demo_call])) = Some 16000 /\
  Forall (fun c => call_rate c = 16000) [demo_call].
Proof.
  split; [cbn; lra |].
  apply (latched_rate_kept 16000 [FrameArrives 1 (other_rate_frame 1000)]
           (mkWorld latched_session [])
           (mkWorld (set_buffer [] (set_transcribing true
              (frame_update (other_rate_frame 1000) latched_session))) [demo_call])
           [demo_call]).
  - lra.
  - reflexivity.
  - reflexivity.
  - rewrite run_cons, (step_frame_eq 1 (other_rate_frame 1000) (mkWorld latched_session []) _ _
                         (other_rate_frame_dispatches 1000)).
    cbv beta iota delta [inflight sess]. rewrite run_nil. reflexivity.
Defined.

(** X5 at a session with rate 0 latched and one second buffered: a frame
    at 16 kHz relatches 16 kHz, and a frame of one more second at rate 0
    dispatches nothing although no call is in flight. *)
Lemma falsy_rate_relatched_witness :
  sampleRateRef (fst (handle_frame 1 (mkFrame [] 0 16000) zero_rate_session)) = Some 16000 /\
  sampleRate (fst (handle_frame 1 (mkFrame [] 0 16000) zero_rate_session)) = Some 16000 /\
  transcribingRef zero_rate_session = false /\
  (0 < length (audioBuffer zero_rate_session ++ data zero_rate_frame))%nat /\
  snd (handle_frame 1 zero_rate_frame zero_rate_session) = None.
Proof.
  destruct (falsy_rate_relatched 1 (mkFrame [] 0 16000) zero_rate_session (or_intror eq_refl))
    as (H1 & H2 & _).
  destruct (falsy_rate_relatched 1 zero_rate_frame zero_rate_session (or_intror eq_refl))
    as (_ & _ & H3).
  split; [exact H1 |]. split; [exact H2 |]. split; [reflexivity |].
  split; [| exact (H3 eq_refl)].
  rewrite length_app. cbn [zero_rate_session zero_rate_frame audioBuffer data].
  unfold silence. rewrite repeat_length. lia.
Defined.

(** X6 at the mount state and an empty frame at 16 kHz. *)
Lemma empty_frame_no_dispatch_witness :
  snd (handle_frame 1 (mkFrame [] 0 16000) initial_session) = None /\
  audioBuffer (fst (handle_frame 1 (mkFrame [] 0 16000) initial_session)) = [] /\
  frameCount (fst (handle_frame 1 (mkFrame [] 0 16000) initial_session)) = 1%nat /\
  last (levels (fst (handle_frame 1 (mkFrame [] 0 16000) initial_session))) 0 = 0.
Proof.
  apply (empty_frame_no_dispatch 1 (mkFrame [] 0 16000) initial_session); reflexivity.
Defined.

(** X7 on a reset followed by the demo run. *)
Lemma frame_count_since_reset_witness :
  frameCount (sess (demo_final (reset_audio initial_session))) = 1%nat.
Proof.
  apply (frame_count_since_reset [] demo_events (mkWorld initial_session [])
           (demo_final (reset_audio initial_session)) [demo_call]).
  - reflexivity.
  - rewrite app_nil_l, run_cons, step_reset_eq.
    cbv beta iota delta [inflight sess].
    rewrite (demo_run (reset_audio initial_session)); [reflexivity | reflexivity | reflexivity |].
    left; reflexivity.
Defined.

(** X8 on a call in flight resolving "hi" after a reset, when "hi" was the
    last snippet accepted before it. *)
Lemma late_result_after_reset_witness :
  exists w',
    run [Reset; CallSettles 0 (Resolved (Some "hi"%string))]
      (mkWorld (set_text "hi" "hi" initial_session) [demo_call]) = Some (w', []) /\
    inflight w' = [] /\ transcript (sess w') = ""%string /\
    lastSnippet (sess w') = "hi"%string.
Proof.
  apply (late_result_after_reset (mkWorld (set_text "hi" "hi" initial_session) [demo_call])
           0 "hi"). simpl; lia.
Defined.

(** X10 on the demo run from the mount state. *)
Lemma saved_transcript_is_transcript_witness :
  trim (transcript (sess (demo_final initial_session))) =
    transcript (sess (demo_final initial_session)) /\
  saved_transcript (transcript (sess (demo_final initial_session))) =
    (if String.eqb (transcript (sess (demo_final initial_session))) "" then None
     else Some (transcript (sess (demo_final initial_session)))).
Proof.
  apply (saved_transcript_is_transcript demo_events (mkWorld initial_session [])
           (demo_final initial_session) [demo_call]).
  - reflexivity.
  - apply demo_run; [reflexivity | reflexivity | left; reflexivity].
Defined.

(** X11 on the demo run from a session whose transcript is "hello". *)
Lemma transcript_only_grows_witness :
  exists suffix,
    transcript (sess (demo_final (set_text "hello" "hello" initial_session))) =
    ("hello" ++ suffix)%string.
Proof.
  apply (transcript_only_grows demo_events (mkWorld (set_text "hello" "hello" initial_session) [])
           (demo_final (set_text "hello" "hello" initial_session)) [demo_call]).
  - reflexivity.
  - apply demo_run; [reflexivity | reflexivity | left; reflexivity].
Defined.

(** X12 on the demo run from the mount state. *)
Lemma dispatched_calls_nonempty_witness :
  Forall (fun c => audio_frames c <> [] /\ call_rate c <> 0) [demo_call].
Proof.
  apply (dispatched_calls_nonempty demo_events (mkWorld initial_session [])
           (demo_final initial_session)).
  apply demo_run; [reflexivity | reflexivity | left; reflexivity].
Defined.

(** X13 on a session where speech is on, and a silent full frame that
    dispatches: speech stays on and [lastVoiceMsRef] stays set. *)
Lemma speaking_has_last_voice_witness :
  speakingRef (sess (mkWorld (set_buffer [] (set_transcribing true
    (frame_update (full_frame 1000) speaking_session))) [demo_call])) = true /\
  lastVoiceMs (sess (mkWorld (set_buffer [] (set_transcribing true
    (frame_update (full_frame 1000) speaking_session))) [demo_call])) <> None.
Proof.
  destruct (speaking_has_last_voice [FrameArrives 1 (full_frame 1000)]
              (mkWorld speaking_session [])
              (mkWorld (set_buffer [] (set_transcribing true
                 (frame_update (full_frame 1000) speaking_session))) [demo_call])
              [demo_call]) as [A B].
  - intros _; discriminate.
  - rewrite run_cons, (step_frame_eq 1 (full_frame 1000) (mkWorld speaking_session []) _ _
                         (full_frame_dispatches 1000 speaking_session eq_refl eq_refl
                            (or_introl eq_refl))).
    cbv beta iota delta [inflight sess]. rewrite run_nil. reflexivity.
  - assert (Hs := B eq_refl eq_refl). split; [exact Hs | exact (A Hs)].
Defined.

End AudioExtra.

(** * Properties of the settings panel's chunk-length field *)

Module PanelFacts.
Import SettingsPanel.

(** X15: the chunk-length input ignores a change while no draft is loaded
    or while the field holds no number ([NaN]); any other value, the
    infinities included, is stored in the draft clamped to [1, 6]
    ([Infinity] gives 6, [-Infinity] gives 1), with the same clamp as the
    hook's [Math.max(1, Math.min(6, ...))], so the hook uses the stored
    value unchanged; the draft is marked dirty, and the [normalize] run
    before saving leaves it as it is. *)
Theorem chunk_change_clamps (raw : jsnum) (p : Panel) :
  (draft p = None \/ raw = NaN -> on_chunk_change raw p = p) /\
  (forall d, draft p = Some d -> raw <> NaN ->
     exists v,
       on_chunk_change raw p = mkPanel (Some (with_chunk_seconds (Num v) d)) true /\
       1 <= v <= 6 /\
       (forall x, raw = Num x -> v = Audio.effective_chunk_seconds x) /\
       (raw = PosInf -> v = 6) /\ (raw = NegInf -> v = 1) /\
       Audio.effective_chunk_seconds v = v /\
       normalize (with_chunk_seconds (Num v) d) = with_chunk_seconds (Num v) d).
Proof.
  split.
  - intros [H | H]; unfold on_chunk_change; rewrite H; [reflexivity |].
    destruct (draft p); reflexivity.
  - intros d Hd Hn. unfold on_chunk_change. rewrite Hd.
    assert (Hin : forall v, 1 <= v <= 6 -> Audio.effective_chunk_seconds v = v).
    { intros v Hv. apply AudioFacts.effective_chunk_seconds_in, Hv. }
    destruct raw as [x | | |]; [| contradiction | |].
    + exists (Audio.effective_chunk_seconds x).
      assert (R1 : 1 <= Audio.effective_chunk_seconds x <= 6).
      { destruct (AudioFacts.effective_chunk_seconds_cases x) as [(? & E) | [(? & E) | (? & E)]];
          rewrite E; lra. }
      split; [reflexivity |]. split; [exact R1 |].
      split; [intros x' Hx; injection Hx as ->; reflexivity |].
      split; [discriminate |]. split; [discriminate |].
      split; [apply Hin, R1 | reflexivity].
    + exists 6. cbn [math_min math_max]. rewrite Rmax_right by lra.
      split; [reflexivity |]. split; [lra |]. split; [discriminate |].
      split; [reflexivity |]. split; [discriminate |].
      split; [apply Hin; lra | reflexivity].
    + exists 1. cbn [math_min math_max].
      split; [reflexivity |]. split; [lra |]. split; [discriminate |].
      split; [discriminate |]. split; [reflexivity |].
      split; [apply Hin; lra | reflexivity].
Qed.

(** X16: [normalize] only touches [chunk_seconds]: it keeps a finite value,
    replaces a non-finite one ([NaN] or an infinity) by 2.5, and is
    idempotent. *)
Theorem normalize_chunk_finite (s : Settings) :
  is_finite (chunk_seconds (normalize s)) = true /\
  normalize (normalize s) = normalize s /\
  (is_finite (chunk_seconds s) = true -> normalize s = s) /\
  (is_finite (chunk_seconds s) = false -> chunk_seconds (normalize s) = Num 2.5) /\
  with_chunk_seconds (chunk_seconds s) (normalize s) = s.
Proof.
  destruct s as [a b c m e g [x | | |] h i j k]; cbn;
    repeat split; intros; try reflexivity; discriminate.
Qed.

End PanelFacts.
